(** * FredIRC: the MessageProcessor and the Connection

    A shallow embedding of [fredirc/processor.py] and [fredirc/connection.py].

    The processor is a Python object whose methods mutate the shared client
    state and the pending-channel table, call back into the handler, and may
    raise.  It is embedded as a small monad over the processor state that
    records the handler calls in order and keeps the mutations made before an
    exception is raised, as Python does. *)

From Stdlib Require Import ZArith Lia Ascii String List Bool.
From stdpp Require Import base decidable option list strings gmap fin_maps fin_sets.

Local Open Scope string_scope.
Local Open Scope Z_scope.

(** ** Python values *)

Module Py.

(** The exceptions the two modules can raise.  [MessageHandlingError] and
    [ParserError] come from [fredirc.errors]; the others are the built-in
    ones raised by indexing, dictionary and attribute lookup, [list.remove],
    [int], [str.encode] and [assert]; [NotConnectedError] is the
    connection's. *)
Inductive exn : Type :=
| MessageHandlingError (msg : string)
| ParserError (msg : string)
| IndexError
| KeyError
| ValueError
| TypeError
| AttributeError
| AssertionError
| UnicodeEncodeError
| NotConnectedError (msg : string).

Inductive result (A : Type) : Type :=
| Ok (a : A)
| Raise (e : exn).
Arguments Ok {A} a.
Arguments Raise {A} e.

(** [s.startswith(c)] for a one-character [c]. *)
Definition startswith (s : string) (c : ascii) : bool :=
  match s with
  | String a _ => bool_decide (a = c)
  | EmptyString => false
  end.

(** [sep.join(l)]. *)
Fixpoint join (sep : string) (l : list string) : string :=
  match l with
  | [] => ""
  | [x] => x
  | x :: rest => x +:+ sep +:+ join sep rest
  end.

(** Truth value of a [str]: the empty string is false. *)
Definition truthy (s : string) : bool := negb (bool_decide (s = "")).

(** Truth value of an optional [str]: [None] and [''] are false. *)
Definition truthy_opt (o : option string) : bool :=
  match o with
  | Some s => truthy s
  | None => false
  end.

Definition is_digit (a : ascii) : bool :=
  let n := Z.of_N (N_of_ascii a) in (48 <=? n) && (n <=? 57).

Definition digit_val (a : ascii) : Z := Z.of_N (N_of_ascii a) - 48.

(** [re.compile('[0-9][0-9][0-9]').match(command)]: [match] anchors at the
    start only, so anything may follow the three digits. *)
Definition three_digits_match (command : string) : bool :=
  match command with
  | String a (String b (String c _)) => is_digit a && is_digit b && is_digit c
  | _ => false
  end.

Definition is_space (a : ascii) : bool :=
  let n := Z.of_N (N_of_ascii a) in
  ((9 <=? n) && (n <=? 13)) || ((28 <=? n) && (n <=? 32)).

Fixpoint all_space (s : string) : bool :=
  match s with
  | EmptyString => true
  | String a rest => is_space a && all_space rest
  end.

(** The digits of an [int] literal after the first one: decimal digits, a
    single underscore allowed between two digits, white space allowed at
    the end. *)
Fixpoint int_digits (acc : Z) (s : string) : option Z :=
  match s with
  | EmptyString => Some acc
  | String a rest =>
      if is_digit a then int_digits (10 * acc + digit_val a) rest
      else if bool_decide (a = "_"%char) then
        match rest with
        | String b rest' =>
            if is_digit b then int_digits (10 * acc + digit_val b) rest'
            else None
        | EmptyString => None
        end
      else if all_space s then Some acc
      else None
  end.

(** [int(command)] on a string that starts with a decimal digit (the only
    strings [process] passes to it); [None] is [ValueError]. *)
Definition int (s : string) : option Z :=
  match s with
  | String a rest => if is_digit a then int_digits (digit_val a) rest else None
  | EmptyString => None
  end.

End Py.

Export Py.

(** ** Data model *)

(** Modelled from the spec: [fredirc.info.ChannelInfo], which is not among
    the sources.  The spec gives it a name, an optional topic (absent until a
    topic arrives) and a set of member nicknames, with the three mutators
    the processor calls. *)
Module ChannelInfo.

Record t : Type := Build { name : string; topic : option string; nicks : gset string }.

(** [ChannelInfo(name)] *)
Definition new (n : string) : t := {| name := n; topic := None; nicks := ∅ |}.

Definition _add_nicks (ns : list string) (c : t) : t :=
  {| name := name c; topic := topic c; nicks := nicks c ∪ list_to_set ns |}.

Definition _remove_nick (n : string) (c : t) : t :=
  {| name := name c; topic := topic c; nicks := nicks c ∖ {[ n ]} |}.

Definition _set_topic (tp : string) (c : t) : t :=
  {| name := name c; topic := Some tp; nicks := nicks c |}.

End ChannelInfo.

(** Modelled from the spec: the client state object ([self._state]), whose
    class is not among the sources.  The fields are the attributes the
    processor reads and writes; [operator_in] and [has_voice_in] are Python
    lists ([append] and [remove] are called on them), so they are lists
    here, duplicates included. *)
Module State.

Record t : Type := Build {
  connected : bool;
  registered : bool;
  server : option string;
  nick : string;
  channels : gmap string ChannelInfo.t;
  operator_in : list string;
  has_voice_in : list string
}.

Definition set_registered (b : bool) (s : t) : t :=
  Build (connected s) b (server s) (nick s) (channels s) (operator_in s) (has_voice_in s).
Definition set_server (p : option string) (s : t) : t :=
  Build (connected s) (registered s) p (nick s) (channels s) (operator_in s) (has_voice_in s).
Definition set_nick (n : string) (s : t) : t :=
  Build (connected s) (registered s) (server s) n (channels s) (operator_in s) (has_voice_in s).
Definition set_channels (c : gmap string ChannelInfo.t) (s : t) : t :=
  Build (connected s) (registered s) (server s) (nick s) c (operator_in s) (has_voice_in s).
Definition set_operator_in (l : list string) (s : t) : t :=
  Build (connected s) (registered s) (server s) (nick s) (channels s) l (has_voice_in s).
Definition set_has_voice_in (l : list string) (s : t) : t :=
  Build (connected s) (registered s) (server s) (nick s) (channels s) (operator_in s) l.

End State.

(** The values the sub-parsers of [fredirc.parsing] return, as far as the
    processor reads them. *)
Module Target.
Record t : Type := Build { nick : option string; channel : option string }.
End Target.

Module ModeChange.
Record t : Type := Build { mode : string; added : bool; params : list string }.
End ModeChange.

Module NameList.
Record t : Type := Build { channel_name : string; nicks : list string }.
End NameList.

(** Modelled from the spec: the constants of [fredirc.messages], which is not
    among the sources.  The command names are the ones the spec lists; the
    numeric replies and the mode letters are the protocol's (RFC 2812). *)
Module Cmd.
Definition PING := "PING".
Definition PRIVMSG := "PRIVMSG".
Definition JOIN := "JOIN".
Definition PART := "PART".
Definition MODE := "MODE".
Definition KICK := "KICK".
Definition NICK := "NICK".
Definition TOPIC := "TOPIC".
Definition QUIT := "QUIT".
End Cmd.

Module Rpl.
Definition WELCOME : Z := 1.
Definition TOPIC : Z := 332.
Definition NAMREPLY : Z := 353.
Definition ENDOFNAMES : Z := 366.
End Rpl.

Module ChannelMode.
Definition OPERATOR := "o".
Definition VOICE := "v".
End ChannelMode.

(** The tokenizer, [fredirc.parsing], is not among the sources: the
    processor is verified against any implementation of its five entry
    points.  [parse] returns prefix, command and parameters;
    [parse_user_prefix] the triple nick, user, host. *)
Class Parsing : Type := {
  parse : string -> result (option string * string * list string);
  parse_user_prefix : option string -> result (string * option string * option string);
  parse_message_target : string -> result (list Target.t);
  parse_channel_mode_params : list string -> result (list ModeChange.t);
  parse_name_list : list string -> result NameList.t
}.

(** [Err.ERROR_PARAMETERS] of [fredirc.messages]: the parameter names of
    each numeric error, a dictionary keyed by the code. *)
Class Err : Type := { ERROR_PARAMETERS : gmap Z (list string) }.

(** The calls made on the handler, in the order they are made. *)
Inductive Event : Type :=
| handle_unhandled_message (msg : string)
| handle_ping (payload : string)
| handle_private_message (msg sender : string)
| handle_channel_message (channel msg sender : string)
| handle_response (num : Z) (raw : string)
| handle_register
| handle_own_join (channel : string)
| handle_error (num : Z) (kwargs : gmap string string)
| handle_join (channel nick : string)
| handle_own_part (channel : string)
| handle_part (channel nick : string) (part_message : option string)
| handle_own_nick_change (old_nick new_nick : string)
| handle_nick_change (old_nick new_nick : string)
| handle_own_got_op (channel initiator : string)
| handle_got_op (channel user initiator : string)
| handle_own_lost_op (channel initiator : string)
| handle_lost_op (channel user initiator : string)
| handle_own_got_voice (channel initiator : string)
| handle_got_voice (channel user initiator : string)
| handle_own_lost_voice (channel initiator : string)
| handle_lost_voice (channel user initiator : string)
| handle_own_kick (channel initiator : string) (reason : option string)
| handle_kick (channel nick initiator : string) (reason : option string)
| handle_quit (nick : string) (quit_message : option string).

(** ** The message processor *)

Module MessageProcessor.

(** The mutable data a [MessageProcessor] works on: the shared client state
    and its own table of channels whose name list is still incomplete. *)
Record t : Type := Build {
  _state : State.t;
  _pending_channel_info : gmap string ChannelInfo.t
}.

(** [MessageProcessor(handler, state, logger)] *)
Definition __init__ (state : State.t) : t := Build state ∅.

(** What running a method leaves behind: the handler calls made, the
    processor after the mutations made, and the value returned or the
    exception raised.  The logger's output is not recorded. *)
Record outcome (A : Type) : Type := Outcome {
  calls : list Event;
  final : t;
  value : result A
}.
Arguments Outcome {A} calls final value.
Arguments calls {A} o.
Arguments final {A} o.
Arguments value {A} o.

Definition M (A : Type) : Type := t -> outcome A.

Definition ret {A} (a : A) : M A := fun p => Outcome [] p (Ok a).

Definition bind {A B} (m : M A) (f : A -> M B) : M B := fun p =>
  let o := m p in
  match value o with
  | Ok a => let o' := f a (final o) in Outcome (calls o ++ calls o') (final o') (value o')
  | Raise e => Outcome (calls o) (final o) (Raise e)
  end.

#[global] Instance M_ret : MRet M := @ret.
#[global] Instance M_bind : MBind M := fun A B f m => bind m f.

Definition raise {A} (e : exn) : M A := fun p => Outcome [] p (Raise e).

(** The result of a call into [fredirc.parsing]. *)
Definition lift {A} (r : result A) : M A := fun p => Outcome [] p r.

(** A call on [self._handler]. *)
Definition call (ev : Event) : M unit := fun p => Outcome [ev] p (Ok tt).

Definition state : M State.t := fun p => Outcome [] p (Ok (_state p)).

Definition pending : M (gmap string ChannelInfo.t) :=
  fun p => Outcome [] p (Ok (_pending_channel_info p)).

Definition update_state (f : State.t -> State.t) : M unit :=
  fun p => Outcome [] (Build (f (_state p)) (_pending_channel_info p)) (Ok tt).

Definition update_pending (f : gmap string ChannelInfo.t -> gmap string ChannelInfo.t) : M unit :=
  fun p => Outcome [] (Build (_state p) (f (_pending_channel_info p))) (Ok tt).

(** [l[i]] *)
Definition index {A} (l : list A) (i : nat) : M A :=
  match l !! i with
  | Some a => ret a
  | None => raise IndexError
  end.

(** [d[k]] on the channel dictionary. *)
Definition getitem (d : gmap string ChannelInfo.t) (k : string) : M ChannelInfo.t :=
  match d !! k with
  | Some c => ret c
  | None => raise KeyError
  end.

(** [k in d] *)
Definition contains (d : gmap string ChannelInfo.t) (k : string) : bool :=
  bool_decide (is_Some (d !! k)).

(** [l.remove(x)]: drops the first occurrence, [None] when there is none
    ([ValueError]). *)
Fixpoint list_remove (x : string) (l : list string) : option (list string) :=
  match l with
  | [] => None
  | y :: rest => if bool_decide (y = x) then Some rest
                 else cons y <$> list_remove x rest
  end.

(** The two [except] clauses of [process]. *)
Definition try_except (body : M unit) : M unit := fun p =>
  let o := body p in
  match value o with
  | Raise (MessageHandlingError e) =>
      Outcome (calls o ++ [handle_unhandled_message e]) (final o) (Ok tt)
  | Raise (ParserError _) => Outcome (calls o) (final o) (Ok tt)
  | _ => o
  end.

Definition is_channel_name (channel : string) : bool :=
  startswith channel "#" || startswith channel "+" || startswith channel "&".

Section Processor.
Context `{Parsing} `{Err}.

Definition nick_of_prefix (prefix : option string) : M string :=
  r ← lift (parse_user_prefix prefix); mret (r.1.1).

Definition _process_ping (params : list string) (raw_msg : string) : M unit :=
  p0 ← index params 0;
  call (handle_ping p0).

Fixpoint privmsg_targets (targets : list Target.t) (msg sender : string) : M unit :=
  match targets with
  | [] => mret tt
  | target :: rest =>
      s ← state;
      (if truthy_opt (Target.nick target)
          && bool_decide (Target.nick target = Some (State.nick s))
       then call (handle_private_message msg sender)
       else match Target.channel target with
            | Some c =>
                if truthy c && contains (State.channels s) c
                then call (handle_channel_message c msg sender)
                else mret tt
            | None => mret tt
            end);;
      privmsg_targets rest msg sender
  end.

Definition _process_privmsg (prefix : option string) (params : list string)
    (raw_msg : string) : M unit :=
  if negb (bool_decide (length params = 2%nat)) then raise (MessageHandlingError raw_msg)
  else
    sender ← (if truthy_opt prefix
              then n ← nick_of_prefix prefix; mret (Some n)
              else mret None);
    s ← state;
    match sender with
    | Some sender =>
        if truthy sender && negb (bool_decide (sender = State.nick s)) then
          p0 ← index params 0;
          targets ← lift (parse_message_target p0);
          msg ← index params 1;
          privmsg_targets targets msg sender
        else mret tt
    | None => mret tt
    end.

Definition _set_topic (channel topic : string) : M unit :=
  if is_channel_name channel then
    pd ← pending;
    s ← state;
    if contains pd channel then
      update_pending (alter (ChannelInfo._set_topic topic) channel)
    else if contains (State.channels s) channel then
      update_state (fun s => State.set_channels
        (alter (ChannelInfo._set_topic topic) channel (State.channels s)) s)
    else mret tt
  else mret tt.

Definition _process_numeric_reply (num : Z) (prefix : option string)
    (params : list string) (raw_msg : string) : M unit :=
  call (handle_response num raw_msg);;
  if bool_decide (num = Rpl.WELCOME) then
    update_state (State.set_registered true);;
    update_state (State.set_server prefix);;
    p0 ← index params 0;
    update_state (State.set_nick p0);;
    call handle_register
  else if bool_decide (num = Rpl.TOPIC) then
    p1 ← index params 1;
    p2 ← index params 2;
    _set_topic p1 p2
  else if bool_decide (num = Rpl.NAMREPLY) then
    channel ← lift (parse_name_list params);
    pd ← pending;
    if contains pd (NameList.channel_name channel) then
      update_pending (alter (ChannelInfo._add_nicks (NameList.nicks channel))
                            (NameList.channel_name channel))
    else mret tt
  else if bool_decide (num = Rpl.ENDOFNAMES) then
    channel ← index params 1;
    if is_channel_name channel then
      pd ← pending;
      match pd !! channel with
      | Some channel_info =>
          update_pending (delete channel);;
          update_state (fun s => State.set_channels
            (<[channel := channel_info]> (State.channels s)) s);;
          call (handle_own_join channel)
      | None => mret tt
      end
    else mret tt
  else mret tt.

(** The two ways [_process_numeric_error] fills [kwargs], a dictionary:
    a later binding of a name replaces an earlier one. *)
Definition degraded_kwargs (param_names params : list string) : gmap string string :=
  foldl (fun kwargs name =>
           <[name := if bool_decide (name = "message") then join " " params else ""]> kwargs)
        ∅ param_names.

Definition zipped_kwargs (param_names params : list string) : gmap string string :=
  foldl (fun kwargs nv => <[nv.1 := nv.2]> kwargs) ∅ (zip param_names params).

Definition _process_numeric_error (num : Z) (params : list string)
    (raw_msg : string) : M unit :=
  let params := tail params in
  match ERROR_PARAMETERS !! num with
  | None => raise KeyError
  | Some param_names =>
      let kwargs :=
        if negb (bool_decide (length params = length param_names))
        then degraded_kwargs param_names params
        else zipped_kwargs param_names params in
      call (handle_error num kwargs)
  end.

Definition _process_join (prefix : option string) (params : list string) : M unit :=
  nick ← nick_of_prefix prefix;
  channel ← index params 0;
  s ← state;
  if bool_decide (State.nick s = nick) then
    if negb (contains (State.channels s) channel) then
      update_pending (<[channel := ChannelInfo.new channel]>)
    else mret tt
  else
    info ← getitem (State.channels s) channel;
    update_state (State.set_channels
      (<[channel := ChannelInfo._add_nicks [nick] info]> (State.channels s)));;
    call (handle_join channel nick).

Definition _process_part (prefix : option string) (params : list string) : M unit :=
  nick ← nick_of_prefix prefix;
  channel ← index params 0;
  s ← state;
  if bool_decide (State.nick s = nick) then
    (if contains (State.channels s) channel then
       update_state (State.set_channels (delete channel (State.channels s)))
     else mret tt);;
    call (handle_own_part channel)
  else
    info ← getitem (State.channels s) channel;
    update_state (State.set_channels
      (<[channel := ChannelInfo._remove_nick nick info]> (State.channels s)));;
    call (handle_part channel nick (params !! 1%nat)).

(** The loop over [channels.values()] of [_process_nick]. *)
Definition rename_nick (old_nick new_nick : string) (c : ChannelInfo.t) : ChannelInfo.t :=
  if bool_decide (old_nick ∈ ChannelInfo.nicks c)
  then ChannelInfo._add_nicks [new_nick] (ChannelInfo._remove_nick old_nick c)
  else c.

Definition _process_nick (prefix : option string) (params : list string) : M unit :=
  old_nick ← nick_of_prefix prefix;
  new_nick ← index params 0;
  update_state (fun s => State.set_channels (rename_nick old_nick new_nick <$> State.channels s) s);;
  s ← state;
  if bool_decide (old_nick = State.nick s) then
    update_state (State.set_nick new_nick);;
    call (handle_own_nick_change old_nick new_nick)
  else
    call (handle_nick_change old_nick new_nick).

(** One turn of the loop of [_process_channel_mode]. *)
Definition channel_mode_change (channel initiator : string) (mode_change : ModeChange.t)
    : M unit :=
  if bool_decide (ModeChange.mode mode_change = ChannelMode.OPERATOR) then
    user ← index (ModeChange.params mode_change) 0;
    s ← state;
    if ModeChange.added mode_change then
      if bool_decide (user = State.nick s) then
        update_state (State.set_operator_in (State.operator_in s ++ [channel]));;
        call (handle_own_got_op channel initiator)
      else call (handle_got_op channel user initiator)
    else
      if bool_decide (user = State.nick s) then
        match list_remove channel (State.operator_in s) with
        | Some l => update_state (State.set_operator_in l);;
                    call (handle_own_lost_op channel initiator)
        | None => raise ValueError
        end
      else call (handle_lost_op channel user initiator)
  else if bool_decide (ModeChange.mode mode_change = ChannelMode.VOICE) then
    user ← index (ModeChange.params mode_change) 0;
    s ← state;
    if ModeChange.added mode_change then
      if bool_decide (user = State.nick s) then
        update_state (State.set_has_voice_in (State.has_voice_in s ++ [channel]));;
        call (handle_own_got_voice channel initiator)
      else call (handle_got_voice channel user initiator)
    else
      if bool_decide (user = State.nick s) then
        match list_remove channel (State.has_voice_in s) with
        | Some l => update_state (State.set_has_voice_in l);;
                    call (handle_own_lost_voice channel initiator)
        | None => raise ValueError
        end
      else call (handle_lost_voice channel user initiator)
  else mret tt.

Fixpoint channel_mode_changes (channel initiator : string)
    (mode_changes : list ModeChange.t) : M unit :=
  match mode_changes with
  | [] => mret tt
  | mode_change :: rest =>
      channel_mode_change channel initiator mode_change;;
      channel_mode_changes channel initiator rest
  end.

Definition _process_channel_mode (channel : string) (params : list string)
    (initiator : string) : M unit :=
  mode_changes ← lift (parse_channel_mode_params params);
  channel_mode_changes channel initiator mode_changes.

Definition _process_mode (prefix : option string) (params : list string)
    (raw_msg : string) : M unit :=
  p0 ← index params 0;
  targets ← lift (parse_message_target p0);
  target ← index targets 0;
  initiator ← nick_of_prefix prefix;
  match Target.channel target with
  | Some c =>
      if truthy c then _process_channel_mode c (tail params) initiator
      else raise (MessageHandlingError raw_msg)
  | None => raise (MessageHandlingError raw_msg)
  end.

Definition _process_kick (prefix : option string) (params : list string) : M unit :=
  if bool_decide (length params < 2)%nat then mret tt
  else
    channel ← index params 0;
    nick ← index params 1;
    initiator ← nick_of_prefix prefix;
    let reason := params !! 2%nat in
    s ← state;
    if bool_decide (nick = State.nick s) then
      (if contains (State.channels s) channel then
         update_state (State.set_channels (delete channel (State.channels s)))
       else mret tt);;
      call (handle_own_kick channel initiator reason)
    else
      info ← getitem (State.channels s) channel;
      update_state (State.set_channels
        (<[channel := ChannelInfo._remove_nick nick info]> (State.channels s)));;
      call (handle_kick channel nick initiator reason).

Definition _process_topic (prefix : option string) (params : list string) : M unit :=
  p0 ← index params 0;
  p1 ← index params 1;
  _set_topic p0 p1.

(** The loop over [channels.values()] of [_process_quit]. *)
Definition drop_nick (nick : string) (c : ChannelInfo.t) : ChannelInfo.t :=
  if bool_decide (nick ∈ ChannelInfo.nicks c) then ChannelInfo._remove_nick nick c else c.

Definition _process_quit (prefix : option string) (params : list string) : M unit :=
  nick ← nick_of_prefix prefix;
  let quit_message := params !! 0%nat in
  update_state (fun s => State.set_channels (drop_nick nick <$> State.channels s) s);;
  call (handle_quit nick quit_message).

(** The body of the [try] of [process]. *)
Definition dispatch (message : string) : M unit :=
  r ← lift (parse message);
  let prefix := r.1.1 in
  let command := r.1.2 in
  let params := r.2 in
  if three_digits_match command then
    match int command with
    | None => raise ValueError
    | Some numeric_reply =>
        if (0 <=? numeric_reply) && (numeric_reply <=? 399) then
          _process_numeric_reply numeric_reply prefix params message
        else if (400 <=? numeric_reply) && (numeric_reply <=? 599) then
          _process_numeric_error numeric_reply params message
        else raise (MessageHandlingError message)
    end
  else if bool_decide (command = Cmd.PING) then _process_ping params message
  else if bool_decide (command = Cmd.PRIVMSG) then _process_privmsg prefix params message
  else if bool_decide (command = Cmd.JOIN) then _process_join prefix params
  else if bool_decide (command = Cmd.PART) then _process_part prefix params
  else if bool_decide (command = Cmd.MODE) then _process_mode prefix params message
  else if bool_decide (command = Cmd.KICK) then _process_kick prefix params
  else if bool_decide (command = Cmd.NICK) then _process_nick prefix params
  else if bool_decide (command = Cmd.TOPIC) then _process_topic prefix params
  else if bool_decide (command = Cmd.QUIT) then _process_quit prefix params
  else raise (MessageHandlingError message).

Definition process (message : string) : M unit :=
  s ← state;
  if State.connected s then try_except (dispatch message)
  else raise AssertionError.

(** Feeding the processor one message after the other.  A message on which
    [process] raises leaves the processor as the exception found it. *)
Definition process_all (messages : list string) (p : t) : t :=
  foldl (fun p message => final (process message p)) p messages.

(** The handler calls made while the messages are processed. *)
Fixpoint calls_of (messages : list string) (p : t) : list Event :=
  match messages with
  | [] => []
  | message :: rest =>
      calls (process message p) ++ calls_of rest (final (process message p))
  end.

End Processor.

End MessageProcessor.

(** ** A tokenizer to run the processor on concrete lines *)

(** Modelled from the spec: a tokenizer for the wire format the spec gives,
    [[:prefix ]command param1 param2 ... [:trailing param]], with the
    sub-parsers for user prefixes [nick[!user]@host], comma-separated target
    lists, name-list replies and mode-change lists.  [fredirc.parsing] is
    not among the sources; the theorems about the processor hold for every
    instance of [Parsing], and this one serves to run it. *)
Module Wire.

(** The words of a line after the prefix; a word starting with a colon
    begins the trailing parameter, which runs to the end of the line. *)
Fixpoint tokens (cur : option string) (s : string) : list string :=
  match s with
  | EmptyString => match cur with Some w => [w] | None => [] end
  | String c rest =>
      if bool_decide (c = " "%char) then
        match cur with Some w => w :: tokens None rest | None => tokens None rest end
      else match cur with
           | None => if bool_decide (c = ":"%char) then [rest]
                     else tokens (Some (String c EmptyString)) rest
           | Some w => tokens (Some (w +:+ String c EmptyString)) rest
           end
  end.

(** [s] cut at the first [c]: what is before it, and what is after it when
    [c] occurs. *)
Fixpoint cut (c : ascii) (s : string) : string * option string :=
  match s with
  | EmptyString => (EmptyString, None)
  | String a rest =>
      if bool_decide (a = c) then (EmptyString, Some rest)
      else let r := cut c rest in (String a r.1, r.2)
  end.

(** [s.split(c)] *)
Fixpoint split (c : ascii) (cur : string) (s : string) : list string :=
  match s with
  | EmptyString => [cur]
  | String a rest =>
      if bool_decide (a = c) then cur :: split c EmptyString rest
      else split c (cur +:+ String a EmptyString) rest
  end.

Definition parse (line : string) : result (option string * string * list string) :=
  let pr :=
    match line with
    | String ":" rest => let r := cut " " rest in (Some r.1, default EmptyString r.2)
    | _ => (None, line)
    end in
  match tokens None pr.2 with
  | command :: params => Ok (pr.1, command, params)
  | [] => Raise (ParserError line)
  end.

Definition parse_user_prefix (prefix : option string)
    : result (string * option string * option string) :=
  match prefix with
  | None => Raise TypeError
  | Some p =>
      let h := cut "@" p in
      match h.2 with
      | None => Ok (p, None, None)
      | Some host => let u := cut "!" h.1 in Ok (u.1, u.2, Some host)
      end
  end.

Definition target_of (s : string) : Target.t :=
  if MessageProcessor.is_channel_name s then Target.Build None (Some s)
  else Target.Build (Some (cut "!" (cut "@" s).1).1) None.

Definition parse_message_target (s : string) : result (list Target.t) :=
  Ok (target_of <$> split "," EmptyString s).

(** A nick of a name list without its status mark. *)
Definition bare_nick (s : string) : string :=
  match s with
  | String c rest => if bool_decide (c = "@"%char) || bool_decide (c = "+"%char) then rest else s
  | EmptyString => s
  end.

(** The parameters of a name-list reply: [me], [=], the channel, the nicks. *)
Definition parse_name_list (params : list string) : result NameList.t :=
  match params with
  | [_; _; channel; names] => Ok (NameList.Build channel (bare_nick <$> tokens None names))
  | _ => Raise (ParserError (join " " params))
  end.

(** The letters of a mode string with their sign; [o] and [v] take the next
    argument. *)
Fixpoint mode_changes (added : bool) (modes : string) (args : list string)
    : list ModeChange.t :=
  match modes with
  | EmptyString => []
  | String c rest =>
      if bool_decide (c = "+"%char) then mode_changes true rest args
      else if bool_decide (c = "-"%char) then mode_changes false rest args
      else if bool_decide (c = "o"%char) || bool_decide (c = "v"%char) then
        ModeChange.Build (String c EmptyString) added (take 1 args)
          :: mode_changes added rest (drop 1 args)
      else ModeChange.Build (String c EmptyString) added [] :: mode_changes added rest args
  end.

Definition parse_channel_mode_params (params : list string) : result (list ModeChange.t) :=
  match params with
  | modes :: args => Ok (mode_changes true modes args)
  | [] => Raise (ParserError EmptyString)
  end.

#[global] Instance parsing : Parsing :=
  Build_Parsing parse parse_user_prefix parse_message_target
    parse_channel_mode_params parse_name_list.

(** The one schema the spec spells out: code 433 takes a nick and a
    message. *)
#[global] Instance err : Err := {| ERROR_PARAMETERS := {[ 433 := ["nick"; "message"] ]} |}.

End Wire.


(** ** Text and bytes of the connection *)

(** The connection turns bytes into text and back, so here a [str] is the
    list of its code points and a [bytes] the list of its byte values. *)
Module Codec.

Abbreviation str := (list Z).
Abbreviation bytes := (list Z).

Definition CR : Z := 13.
Definition LF : Z := 10.
Definition REPLACEMENT : Z := 65533.

Definition CRLF : str := [CR; LF].

(** The code points that can be encoded: all but the surrogates. *)
Definition scalar (c : Z) : bool :=
  (0 <=? c) && (c <? 1114112) && negb ((55296 <=? c) && (c <=? 57343)).

(** [chr(c).encode('utf-8')]; [None] is [UnicodeEncodeError]. *)
Definition encode_char (c : Z) : option bytes :=
  if negb (scalar c) then None
  else if c <? 128 then Some [c]
  else if c <? 2048 then Some [192 + c / 64; 128 + c mod 64]
  else if c <? 65536 then
    Some [224 + c / 4096; 128 + (c / 64) mod 64; 128 + c mod 64]
  else
    Some [240 + c / 262144; 128 + (c / 4096) mod 64; 128 + (c / 64) mod 64; 128 + c mod 64].

(** [s.encode('utf-8')] *)
Fixpoint encode (s : str) : option bytes :=
  match s with
  | [] => Some []
  | c :: rest =>
      match encode_char c, encode rest with
      | Some b, Some bs => Some (b ++ bs)%list
      | _, _ => None
      end
  end.

(** The [reason] of a [UnicodeDecodeError]. *)
Inductive reason : Type :=
| invalid_start_byte
| invalid_continuation_byte
| unexpected_end_of_data.

Definition reason_text (r : reason) : string :=
  match r with
  | invalid_start_byte => "invalid start byte"
  | invalid_continuation_byte => "invalid continuation byte"
  | unexpected_end_of_data => "unexpected end of data"
  end.

(** What the UTF-8 decoder finds in its input: a character, or a malformed
    run of bytes, at which it calls the error handler and resumes after the
    run. *)
Inductive item : Type :=
| Char (c : Z)
| Malformed (r : reason).

Definition continuation (b : Z) : bool := (128 <=? b) && (b <=? 191).

(** The second byte of a three-byte sequence: [E0] needs [A0..BF] (no
    overlong form), [ED] needs [80..9F] (no surrogate). *)
Definition second_of_3 (b1 b2 : Z) : bool :=
  continuation b2 &&
  (if b1 =? 224 then 160 <=? b2 else if b1 =? 237 then b2 <? 160 else true).

(** The second byte of a four-byte sequence: [F0] needs [90..BF], [F4]
    needs [80..8F]. *)
Definition second_of_4 (b1 b2 : Z) : bool :=
  continuation b2 &&
  (if b1 =? 240 then 144 <=? b2 else if b1 =? 244 then b2 <? 144 else true).

(** The decoder of [bytes.decode('utf-8', ...)]: a malformed run is the
    longest prefix of a sequence that could still be completed, or a single
    byte that cannot start a sequence. *)
Fixpoint scan (data : bytes) : list item :=
  match data with
  | [] => []
  | b1 :: r1 =>
      if b1 <? 128 then Char b1 :: scan r1
      else if b1 <? 194 then Malformed invalid_start_byte :: scan r1
      else if b1 <? 224 then
        match r1 with
        | [] => [Malformed unexpected_end_of_data]
        | b2 :: r2 =>
            if continuation b2 then Char ((b1 - 192) * 64 + (b2 - 128)) :: scan r2
            else Malformed invalid_continuation_byte :: scan r1
        end
      else if b1 <? 240 then
        match r1 with
        | [] => [Malformed unexpected_end_of_data]
        | b2 :: r2 =>
            if second_of_3 b1 b2 then
              match r2 with
              | [] => [Malformed unexpected_end_of_data]
              | b3 :: r3 =>
                  if continuation b3 then
                    Char ((b1 - 224) * 4096 + (b2 - 128) * 64 + (b3 - 128)) :: scan r3
                  else Malformed invalid_continuation_byte :: scan r2
              end
            else Malformed invalid_continuation_byte :: scan r1
        end
      else if b1 <? 245 then
        match r1 with
        | [] => [Malformed unexpected_end_of_data]
        | b2 :: r2 =>
            if second_of_4 b1 b2 then
              match r2 with
              | [] => [Malformed unexpected_end_of_data]
              | b3 :: r3 =>
                  if continuation b3 then
                    match r3 with
                    | [] => [Malformed unexpected_end_of_data]
                    | b4 :: r4 =>
                        if continuation b4 then
                          Char ((b1 - 240) * 262144 + (b2 - 128) * 4096
                                + (b3 - 128) * 64 + (b4 - 128)) :: scan r4
                        else Malformed invalid_continuation_byte :: scan r3
                    end
                  else Malformed invalid_continuation_byte :: scan r2
              end
            else Malformed invalid_continuation_byte :: scan r1
        end
      else Malformed invalid_start_byte :: scan r1
  end.

(** The line boundaries of [str.splitlines]. *)
Definition line_boundary (c : Z) : bool :=
  ((10 <=? c) && (c <=? 13)) || ((28 <=? c) && (c <=? 30))
  || (c =? 133) || (c =? 8232) || (c =? 8233).

(** [s.splitlines()], with the line read so far in [cur]: a carriage return
    followed by a line feed is one boundary, and text after the last
    boundary is a line only when it is not empty. *)
Fixpoint splitlines_from (cur : str) (s : str) : list str :=
  match s with
  | [] => match cur with [] => [] | _ => [cur] end
  | c :: rest =>
      if c =? CR then
        match rest with
        | c' :: rest' =>
            if c' =? LF then cur :: splitlines_from [] rest'
            else cur :: splitlines_from [] rest
        | [] => [cur]
        end
      else if line_boundary c then cur :: splitlines_from [] rest
      else splitlines_from (cur ++ [c]) rest
  end.

Definition splitlines (s : str) : list str := splitlines_from [] s.

(** What an item becomes when the error handler answers with the
    replacement character. *)
Definition item_text (i : item) : str :=
  match i with
  | Char c => [c]
  | Malformed _ => [REPLACEMENT]
  end.

Definition replaced (items : list item) : str := flat_map item_text items.

(** A well-formed line: code points that can be encoded, no line boundary
    among them. *)
Definition plain (line : str) : bool :=
  forallb (fun c => scalar c && negb (line_boundary c)) line.

(** Lines as they travel: each one followed by carriage return and line
    feed. *)
Definition framed (lines : list str) : str :=
  flat_map (fun line => (line ++ CRLF)%list) lines.

End Codec.

(** ** The event loop *)

(** The part of asyncio's event loop the connection relies on.  As asyncio
    documents it, [stop] asks a running loop to exit once the batch of
    callbacks it is running is done, and [is_running] tells whether the loop
    is running: it stays true until the loop has exited.  Every method of the
    protocol is called by the loop as one of those callbacks. *)
Module Loop.

Record t : Type := Build { running : bool; stopping : bool }.

Definition idle : t := Build false false.

Definition is_running (l : t) : bool := running l.

Definition stop (l : t) : t := Build (running l) true.

(** [run_forever] entered. *)
Definition run_forever (l : t) : t := Build true (stopping l).

(** The loop has run its current batch of callbacks: it exits when [stop]
    was called. *)
Definition batch_done (l : t) : t :=
  if stopping l then Build false false else l.

End Loop.

(** ** The connection *)

Module Connection.
Import Codec.

Local Open Scope list_scope.

Inductive level : Type := DEBUG | INFO | ERROR | CRITICAL.

(** A call on [self._logger]: the level, the constant text and the text
    appended to it. *)
Record record : Type := Log { lvl : level; text : string; arg : str }.

(** A connection and what it has done to its collaborators: the chunks
    written to the transport ([None] before [connection_made] sets the
    attribute), the log, and the calls of the three abstract methods that
    reach the client. *)
Record t : Type := Build {
  loop : Loop.t;
  _transport : option (list bytes);
  log : list record;
  initiations : nat;
  dispatched : list str;
  shutdowns : nat
}.

(** [Connection(client, server, port)] *)
Definition __init__ : t := Build Loop.idle None [] 0 [] 0.

Definition set_loop (l : Loop.t) (c : t) : t :=
  Build l (_transport c) (log c) (initiations c) (dispatched c) (shutdowns c).

Definition logging (r : record) (c : t) : t :=
  Build (loop c) (_transport c) (log c ++ [r]) (initiations c) (dispatched c) (shutdowns c).

Definition connection_shutdown (c : t) : t :=
  Build (loop c) (_transport c) (log c) (initiations c) (dispatched c) (S (shutdowns c)).

Definition connection_initiation (c : t) : t :=
  Build (loop c) (_transport c) (log c) (S (initiations c)) (dispatched c) (shutdowns c).

(** [run]: the loop is started unless it is already running. *)
Definition run (c : t) : t :=
  if negb (Loop.is_running (loop c)) then set_loop (Loop.run_forever (loop c)) c else c.

Definition terminate (c : t) : t :=
  if Loop.is_running (loop c) then connection_shutdown (set_loop (Loop.stop (loop c)) c)
  else c.

Definition send_message (message : str) (c : t) : t * result unit :=
  if Loop.is_running (loop c) then
    let c := logging (Log DEBUG "Sending message: " message) c in
    let message := message ++ CRLF in
    match _transport c with
    | None => (c, Raise AttributeError)
    | Some written =>
        match encode message with
        | None => (c, Raise UnicodeEncodeError)
        | Some data =>
            (Build (loop c) (Some (written ++ [data])) (log c) (initiations c)
                   (dispatched c) (shutdowns c), Ok tt)
        end
    end
  else (c, Raise (NotConnectedError "TODO")).

(** [_decoding_error_handler]: two log records, then what
    [codecs.replace_errors] returns, the replacement character (decoding
    resumes after the malformed bytes). *)
Definition _decoding_error_handler (r : reason) (c : t) : t * result str :=
  let c := logging (Log ERROR ("Invalid character encoding: " +:+ reason_text r) []) c in
  let c := logging (Log ERROR "Replacing the malformed character." []) c in
  (c, Ok [REPLACEMENT]).

(** The records [_decoding_error_handler] leaves in the log for the
    malformed runs among the items. *)
Definition diagnostics (items : list item) : list record :=
  flat_map (fun i => match i with
                     | Char _ => []
                     | Malformed r =>
                         [Log ERROR ("Invalid character encoding: " +:+ reason_text r) [];
                          Log ERROR "Replacing the malformed character." []]
                     end) items.

(** [data.decode('utf-8', errors)]: the error handler is called at every
    malformed run, and an exception it raises ends the decoding. *)
Fixpoint decode_items (handler : reason -> t -> t * result str) (items : list item)
    (c : t) : t * result str :=
  match items with
  | [] => (c, Ok [])
  | Char ch :: rest =>
      match decode_items handler rest c with
      | (c', Ok s) => (c', Ok (ch :: s))
      | (c', Raise e) => (c', Raise e)
      end
  | Malformed r :: rest =>
      match handler r c with
      | (c1, Ok repl) =>
          match decode_items handler rest c1 with
          | (c', Ok s) => (c', Ok (repl ++ s))
          | (c', Raise e) => (c', Raise e)
          end
      | (c1, Raise e) => (c1, Raise e)
      end
  end.

Definition decode (handler : reason -> t -> t * result str) (data : bytes) (c : t)
    : t * result str :=
  decode_items handler (scan data) c.

(** The callbacks asyncio makes on the protocol besides [data_received]. *)
Definition connection_made (c : t) : t :=
  connection_initiation
    (Build (loop c) (Some []) (log c) (initiations c) (dispatched c) (shutdowns c)).

(** The class defines [connect_lost]; the callback asyncio makes when the
    connection is lost is [connection_lost], which the class inherits from
    [asyncio.Protocol], where it does nothing. *)
Definition connect_lost (c : t) : t :=
  terminate (logging (Log INFO "Connection closed." []) c).

Definition connection_lost (c : t) : t := c.

Definition eof_received (c : t) : t :=
  terminate (logging (Log DEBUG "Received EOF" []) c).

(** The end of the batch of callbacks the loop is running. *)
Definition batch_done (c : t) : t := set_loop (Loop.batch_done (loop c)) c.

Section Client.
(** Whether the client's [_handle] raises on a message. *)
Variable handle_raises : str -> bool.

Definition message_dispatching (message : str) (c : t) : t * result unit :=
  (Build (loop c) (_transport c) (log c) (initiations c) (dispatched c ++ [message])
         (shutdowns c),
   if handle_raises message then Raise ValueError else Ok tt).

(** The [for] loop of [data_received]. *)
Fixpoint dispatch_lines (lines : list str) (c : t) : t * result unit :=
  match lines with
  | [] => (c, Ok tt)
  | message :: rest =>
      let c := logging (Log DEBUG "Incoming message: " message) c in
      match message_dispatching message c with
      | (c', Ok _) => dispatch_lines rest c'
      | (c', Raise e) => (c', Raise e)
      end
  end.

(** The body of the [try] of [data_received]. *)
Definition receive (data : bytes) (c : t) : t * result unit :=
  match decode _decoding_error_handler data c with
  | (c', Ok s) => dispatch_lines (splitlines s) c'
  | (c', Raise e) => (c', Raise e)
  end.

Definition data_received (data : bytes) (c : t) : t :=
  match receive data c with
  | (c', Ok _) => c'
  | (c', Raise _) =>
      let c' := logging (Log ERROR "Unhandled Exception while running an IRCClient:" []) c' in
      let c' := logging (Log CRITICAL
        "Shutting down the client, due to an unhandled exception!" []) c' in
      terminate c'
  end.

End Client.

End Connection.

(** ** The properties stated about the processor *)

Module Invariant.
Import MessageProcessor.

(** No channel is at once pending and occupied. *)
Definition disjoint_tables (p : MessageProcessor.t) : Prop :=
  ∀ c : string,
    ¬ (is_Some (_pending_channel_info p !! c) ∧ is_Some (State.channels (_state p) !! c)).


(** The status flags are as they were. *)
Definition same_flags (p p' : MessageProcessor.t) : Prop :=
  State.operator_in (_state p') = State.operator_in (_state p)
  ∧ State.has_voice_in (_state p') = State.has_voice_in (_state p).



(** A processor just created, for a connected client that has not
    registered yet. *)
Definition fresh : MessageProcessor.t :=
  __init__ (State.Build true false None EmptyString ∅ [] []).

End Invariant.

(** Processors and lines to run the properties on, with the tokenizer of
    [Wire]. *)
Module Scenario.
Import MessageProcessor.

(** A processor for a client registered as [me]. *)
Definition registered : MessageProcessor.t :=
  __init__ (State.Build true true (Some "srv") "me" ∅ [] []).

(** The client has sent its JOIN for [#x] and the names are still to come. *)
Definition joining : MessageProcessor.t :=
  final (process ":me!u@h JOIN #x" registered).

(** Registration, the join of [#x], and the client made operator there. *)
Definition handshake : list string :=
  [":srv 001 me :Welcome"; ":me!u@h JOIN #x"; ":srv 353 me = #x :me @op";
   ":srv 366 me #x :End of names"; ":op!u@h MODE #x +o me"].

End Scenario.

(** Connections to run the properties on. *)
Module Session.
Import Codec Connection.

(** A connection whose loop is running and whose transport is made: what
    [start] leaves once asyncio has called [connection_made]. *)
Definition live : Connection.t := connection_made (run __init__).

(** The text [QUIT]. *)
Definition quit : str := [81; 85; 73; 84].

(** A client whose [_handle] never raises. *)
Definition calm (message : str) : bool := false.

(** The text [PING :a] and the text [NICK me]. *)
Definition ping : str := [80; 73; 78; 71; 32; 58; 97].
Definition nick : str := [78; 73; 67; 75; 32; 109; 101].

End Session.

(** How far a processor may move: the connection flag as it was, the
    registration not taken back. *)
Module Lifecycle.
Import MessageProcessor.

Definition steady (p p' : MessageProcessor.t) : Prop :=
  State.connected (_state p') = State.connected (_state p)
  ∧ (State.registered (_state p) = true → State.registered (_state p') = true).

End Lifecycle.

(** More processors and clients to run the properties on. *)
Module Cases.
Import MessageProcessor Scenario.

(** The client has joined [#x], where [a] and [b] are. *)
Definition occupied : MessageProcessor.t :=
  process_all [":me!u@h JOIN #x"; ":srv 353 me = #x :a b"; ":srv 366 me #x :End of names"]
    registered.

(** The client has sent its JOIN for [#x] and the names [a] and [b] have
    come, the end of the names has not. *)
Definition collecting : MessageProcessor.t :=
  process_all [":me!u@h JOIN #x"; ":srv 353 me = #x :a b"] registered.

(** What [occupied] knows of [#x]. *)
Definition known : ChannelInfo.t :=
  default (ChannelInfo.new "#x") (State.channels (_state occupied) !! "#x").

(** A client whose [_handle] raises on the text [NICK me]. *)
Definition touchy (message : Codec.str) : bool := bool_decide (message = Session.nick).

(** The bytes of three lines, each with its terminator. *)
Definition three_lines : Codec.bytes :=
  default [] (Codec.encode (Codec.framed [Session.ping; Session.nick; Session.quit])).

End Cases.

(** * Proofs *)

Import MessageProcessor Invariant Scenario.

(** ** Running the monad *)

Ltac run :=
  unfold mbind, M_bind, mret, M_ret, bind, ret, lift, raise, call, state, pending,
    update_state, update_pending, index, getitem, contains in *; simpl in *.

Ltac cases := repeat (case_match; simpl in *; subst; simplify_eq); try done.

Ltac table_facts :=
  repeat match goal with
  | H : bool_decide _ = true |- _ => apply bool_decide_eq_true in H
  | H : bool_decide _ = false |- _ => apply bool_decide_eq_false in H
  | H : negb _ = true |- _ => apply negb_true_iff in H
  | H : negb _ = false |- _ => apply negb_false_iff in H
  | H : _ && _ = true |- _ => apply andb_true_iff in H; destruct H
  end.

(** A channel pending and occupied after a step was so before it. *)
Ltac disjointness Hd :=
  let c := fresh "c" in
  let Hp := fresh "Hp" in
  let Hc := fresh "Hc" in
  intros c [Hp Hc]; simpl in *; apply (Hd c);
  repeat match goal with
  | H : is_Some ((_ <$> _) !! _) |- _ => rewrite lookup_fmap in H; apply fmap_is_Some in H
  | H : is_Some (alter _ ?k _ !! c) |- _ =>
      rewrite lookup_alter in H; destruct (decide (k = c)); subst;
      [apply fmap_is_Some in H|]
  | H : is_Some (<[?k := _]> _ !! c) |- _ =>
      rewrite lookup_insert in H; destruct (decide (k = c)); subst
  | H : is_Some (delete ?k _ !! c) |- _ =>
      rewrite lookup_delete in H; destruct (decide (k = c)); subst
  end;
  try (split; eauto; fail);
  try (exfalso; eauto using is_Some_None; fail);
  try match goal with Hn : is_Some None |- _ => by destruct (is_Some_None Hn) end.


Section ProcessorFacts.
Context {tokenizer : Parsing} {errors : Err}.

Lemma lift_ok_bind {A B} (a : A) (f : A → M B) p : (lift (Ok a) ≫= f) p = f a p.
Proof. unfold mbind, M_bind, bind, lift. simpl. by destruct (f a p). Qed.

Lemma state_bind {B} (f : State.t → M B) p : (state ≫= f) p = f (_state p) p.
Proof. unfold mbind, M_bind, bind, state. simpl. by destruct (f (_state p) p). Qed.

Lemma try_except_final (m : M unit) p : final (try_except m p) = final (m p).
Proof. unfold try_except. repeat case_match; done. Qed.

(** [process] on a connected client and a line the tokenizer accepts: the
    dispatch on the command, inside the two [except] clauses. *)
Lemma process_parsed message p prefix command params :
  State.connected (_state p) = true →
  parse message = Ok (prefix, command, params) →
  process message p =
  try_except
    (if three_digits_match command then
       match int command with
       | None => raise ValueError
       | Some numeric_reply =>
           if (0 <=? numeric_reply) && (numeric_reply <=? 399) then
             _process_numeric_reply numeric_reply prefix params message
           else if (400 <=? numeric_reply) && (numeric_reply <=? 599) then
             _process_numeric_error numeric_reply params message
           else raise (MessageHandlingError message)
       end
     else if bool_decide (command = Cmd.PING) then _process_ping params message
     else if bool_decide (command = Cmd.PRIVMSG) then _process_privmsg prefix params message
     else if bool_decide (command = Cmd.JOIN) then _process_join prefix params
     else if bool_decide (command = Cmd.PART) then _process_part prefix params
     else if bool_decide (command = Cmd.MODE) then _process_mode prefix params message
     else if bool_decide (command = Cmd.KICK) then _process_kick prefix params
     else if bool_decide (command = Cmd.NICK) then _process_nick prefix params
     else if bool_decide (command = Cmd.TOPIC) then _process_topic prefix params
     else if bool_decide (command = Cmd.QUIT) then _process_quit prefix params
     else raise (MessageHandlingError message)) p.
Proof.
  intros Hc Hp. unfold process. rewrite state_bind, Hc.
  unfold try_except, dispatch. rewrite Hp, lift_ok_bind. reflexivity.
Qed.

Lemma process_final message p :
  final (process message p)
  = if State.connected (_state p) then final (dispatch message p) else p.
Proof.
  unfold process. run. case_match; [|done].
  change (final (try_except (dispatch message) p) = final (dispatch message p)).
  apply try_except_final.
Qed.

(** ** What each method leaves of the processor *)

Lemma privmsg_targets_final targets msg sender p :
  final (privmsg_targets targets msg sender p) = p.
Proof.
  induction targets as [|tg rest IH]; [done|].
  simpl. run. cases; rewrite ?IH; done.
Qed.

Lemma ping_final params raw p : final (_process_ping params raw p) = p.
Proof. unfold _process_ping. run. cases. Qed.

Lemma privmsg_final prefix params raw p :
  final (_process_privmsg prefix params raw p) = p.
Proof.
  unfold _process_privmsg, nick_of_prefix. run. cases.
  all: by rewrite ?privmsg_targets_final.
Qed.

Lemma numeric_error_final num params raw p :
  final (_process_numeric_error num params raw p) = p.
Proof. unfold _process_numeric_error. run. cases. Qed.

Lemma channel_mode_change_tables channel initiator mc p :
  let p' := final (channel_mode_change channel initiator mc p) in
  _pending_channel_info p' = _pending_channel_info p
  ∧ State.channels (_state p') = State.channels (_state p).
Proof. unfold channel_mode_change. run. cases. Qed.

Lemma channel_mode_changes_tables channel initiator mcs p :
  let p' := final (channel_mode_changes channel initiator mcs p) in
  _pending_channel_info p' = _pending_channel_info p
  ∧ State.channels (_state p') = State.channels (_state p).
Proof.
  revert p. induction mcs as [|mc rest IH]; intros p; [done|].
  simpl. run.
  destruct (channel_mode_change_tables channel initiator mc p) as [E1 E2].
  case_match; simpl; [|done].
  destruct (IH (final (channel_mode_change channel initiator mc p))) as [E3 E4].
  simpl in *. split; congruence.
Qed.

Lemma mode_tables prefix params raw p :
  let p' := final (_process_mode prefix params raw p) in
  _pending_channel_info p' = _pending_channel_info p
  ∧ State.channels (_state p') = State.channels (_state p).
Proof.
  unfold _process_mode, _process_channel_mode, nick_of_prefix. run. cases.
  all: apply channel_mode_changes_tables.
Qed.

(** ** Pending and occupied channels *)

Lemma join_disjoint prefix params p :
  disjoint_tables p → disjoint_tables (final (_process_join prefix params p)).
Proof.
  intros Hd. unfold _process_join, nick_of_prefix. run. cases; table_facts.
  all: disjointness Hd.
Qed.

Lemma part_disjoint prefix params p :
  disjoint_tables p → disjoint_tables (final (_process_part prefix params p)).
Proof.
  intros Hd. unfold _process_part, nick_of_prefix. run. cases; table_facts.
  all: disjointness Hd.
Qed.

Lemma kick_disjoint prefix params p :
  disjoint_tables p → disjoint_tables (final (_process_kick prefix params p)).
Proof.
  intros Hd. unfold _process_kick, nick_of_prefix. run. cases; table_facts.
  all: disjointness Hd.
Qed.

Lemma nick_disjoint prefix params p :
  disjoint_tables p → disjoint_tables (final (_process_nick prefix params p)).
Proof.
  intros Hd. unfold _process_nick, nick_of_prefix. run. cases; table_facts.
  all: disjointness Hd.
Qed.

Lemma quit_disjoint prefix params p :
  disjoint_tables p → disjoint_tables (final (_process_quit prefix params p)).
Proof.
  intros Hd. unfold _process_quit, nick_of_prefix. run. cases; table_facts.
  all: disjointness Hd.
Qed.

Lemma set_topic_disjoint channel topic p :
  disjoint_tables p → disjoint_tables (final (_set_topic channel topic p)).
Proof.
  intros Hd. unfold _set_topic. run. cases; table_facts.
  all: disjointness Hd.
Qed.

Lemma topic_disjoint prefix params p :
  disjoint_tables p → disjoint_tables (final (_process_topic prefix params p)).
Proof.
  intros Hd. unfold _process_topic. run. cases. by apply set_topic_disjoint.
Qed.

Lemma same_tables_disjoint p p' :
  _pending_channel_info p' = _pending_channel_info p →
  State.channels (_state p') = State.channels (_state p) →
  disjoint_tables p → disjoint_tables p'.
Proof. unfold disjoint_tables. intros -> ->. done. Qed.

Lemma numeric_reply_disjoint num prefix params raw p :
  disjoint_tables p → disjoint_tables (final (_process_numeric_reply num prefix params raw p)).
Proof.
  intros Hd. unfold _process_numeric_reply. run. cases; table_facts.
  all: try (by apply set_topic_disjoint).
  all: disjointness Hd.
Qed.

Lemma dispatch_disjoint message p :
  disjoint_tables p → disjoint_tables (final (dispatch message p)).
Proof.
  intros Hd. unfold dispatch. run.
  destruct (parse message) as [[[prefix command] params]|e]; simpl; [|done].
  repeat case_match; try done.
  all: lazymatch goal with
       | |- context [_process_numeric_reply] => by apply numeric_reply_disjoint
       | |- context [_process_numeric_error] => by rewrite numeric_error_final
       | |- context [_process_ping] => by rewrite ping_final
       | |- context [_process_privmsg] => by rewrite privmsg_final
       | |- context [_process_join] => by apply join_disjoint
       | |- context [_process_part] => by apply part_disjoint
       | |- context [_process_mode] =>
           by (eapply same_tables_disjoint; [apply mode_tables..|done])
       | |- context [_process_kick] => by apply kick_disjoint
       | |- context [_process_nick] => by apply nick_disjoint
       | |- context [_process_topic] => by apply topic_disjoint
       | |- context [_process_quit] => by apply quit_disjoint
       end.
Qed.

Lemma process_disjoint message p :
  disjoint_tables p → disjoint_tables (final (process message p)).
Proof.
  intros Hd. unfold process. run. case_match; [|done].
  change (disjoint_tables (final (try_except (dispatch message) p))).
  rewrite try_except_final. by apply dispatch_disjoint.
Qed.

(** C2: whatever messages are processed, from a processor in which no
    channel is both pending and occupied (a new one has no pending channel
    at all), no channel is ever at once a key of the pending table and a key
    of [channels]; this holds after every message, those on which [process]
    raises included. *)
Theorem pending_and_channels_disjoint messages p :
  disjoint_tables p → disjoint_tables (process_all messages p).
Proof.
  revert p. induction messages as [|m rest IH]; intros p Hd; [done|].
  simpl. apply IH. by apply process_disjoint.
Qed.

(** ** The status flags and the keys of [channels] *)

Lemma same_flags_refl p : same_flags p p.
Proof. done. Qed.














(** ** Single messages *)


(** C10: a JOIN of another nick for a channel that is not a key of
    [channels] makes [process] raise [KeyError]: the exception is none of
    the two that [process] catches, nothing is reported to the handler and
    the processor is left as it was. *)
Theorem join_of_other_in_unknown_channel_raises message p prefix channel rest nick user host :
  State.connected (_state p) = true →
  parse message = Ok (prefix, Cmd.JOIN, channel :: rest) →
  parse_user_prefix prefix = Ok (nick, user, host) →
  nick ≠ State.nick (_state p) →
  State.channels (_state p) !! channel = None →
  process message p = Outcome [] p (Raise KeyError).
Proof.
  intros Hc Hp Hu Hn Hk. rewrite (process_parsed _ _ _ _ _ Hc Hp).
  simpl. unfold try_except, _process_join, nick_of_prefix. run.
  rewrite Hu. simpl. rewrite bool_decide_eq_false_2 by congruence.
  rewrite Hk. simpl. reflexivity.
Qed.

Lemma truthy_true s : s ≠ "" → truthy s = true.
Proof. intros Hs. unfold truthy. by rewrite bool_decide_eq_false_2. Qed.

Opaque truthy.


Transparent truthy.



(** C3: from a processor in which the channel is neither occupied nor
    pending, the client's own JOIN, a name-list reply with the nicks [a] and
    [b] and the end-of-names reply leave the channel in [channels] with
    exactly these two nicks; over the three messages [handle_own_join] is
    called once, by the last of them, after the two calls of
    [handle_response]. *)
Theorem join_handshake m1 m2 m3 p ch a b prefix1 rest1 user host
    prefix2 params2 prefix3 target3 rest3 :
  State.connected (_state p) = true →
  State.channels (_state p) !! ch = None →
  _pending_channel_info p !! ch = None →
  is_channel_name ch = true →
  parse m1 = Ok (prefix1, Cmd.JOIN, ch :: rest1) →
  parse_user_prefix prefix1 = Ok (State.nick (_state p), user, host) →
  parse m2 = Ok (prefix2, "353", params2) →
  parse_name_list params2 = Ok (NameList.Build ch [a; b]) →
  parse m3 = Ok (prefix3, "366", target3 :: ch :: rest3) →
  ChannelInfo.nicks <$> State.channels (_state (process_all [m1; m2; m3] p)) !! ch
  = Some {[a; b]}
  ∧ calls_of [m1; m2] p = [handle_response 353 m2]
  ∧ calls_of [m1; m2; m3] p
    = [handle_response 353 m2; handle_response 366 m3; handle_own_join ch].
Proof.
  intros Hc Hch Hpd Hname Hp1 Hu Hp2 Hnl Hp3.
  pose (p1 := Build (_state p) (<[ch := ChannelInfo.new ch]> (_pending_channel_info p))).
  pose (p2 := Build (_state p)
                (alter (ChannelInfo._add_nicks [a; b]) ch (_pending_channel_info p1))).
  pose (p3 := Build
                (State.set_channels
                   (<[ch := ChannelInfo._add_nicks [a; b] (ChannelInfo.new ch)]>
                      (State.channels (_state p))) (_state p))
                (delete ch (_pending_channel_info p2))).
  assert (E1 : process m1 p = Outcome [] p1 (Ok tt)).
  { rewrite (process_parsed _ _ _ _ _ Hc Hp1).
    simpl. unfold try_except, _process_join, nick_of_prefix. run.
    rewrite Hu. simpl. rewrite bool_decide_eq_true_2 by done.
    rewrite Hch. simpl. reflexivity. }
  assert (E2 : process m2 p1 = Outcome [handle_response 353 m2] p2 (Ok tt)).
  { rewrite (process_parsed m2 p1 _ _ _ Hc Hp2).
    simpl. unfold try_except, _process_numeric_reply. run.
    rewrite Hnl. simpl. rewrite lookup_insert_eq. simpl. reflexivity. }
  assert (E3 : process m3 p2
               = Outcome [handle_response 366 m3; handle_own_join ch] p3 (Ok tt)).
  { rewrite (process_parsed m3 p2 _ _ _ Hc Hp3).
    simpl. unfold try_except, _process_numeric_reply. run.
    assert (Hl : _pending_channel_info p2 !! ch
                 = Some (ChannelInfo._add_nicks [a; b] (ChannelInfo.new ch)))
      by (simpl; by rewrite lookup_alter_eq, lookup_insert_eq).
    rewrite Hname, Hl. simpl. reflexivity. }
  unfold process_all. cbn [foldl calls_of].
  rewrite E1. cbn [final calls]. rewrite E2. cbn [final calls]. rewrite E3.
  cbn [final calls]. repeat split.
  simpl. rewrite lookup_insert_eq. simpl. f_equal.
  by rewrite (left_id_L ∅ (∪)), (right_id_L ∅ (∪)).
Qed.
End ProcessorFacts.

(** ** The properties on concrete lines *)

Lemma fresh_disjoint : disjoint_tables fresh.
Proof. intros c [Hp _]. by destruct (is_Some_None Hp). Qed.

Lemma pending_and_channels_disjoint_witness :
  disjoint_tables fresh ∧ disjoint_tables (process_all handshake fresh).
Proof.
  split; [exact fresh_disjoint|].
  apply (pending_and_channels_disjoint handshake fresh). exact fresh_disjoint.
Defined.



Lemma join_handshake_witness :
  ChannelInfo.nicks <$>
    State.channels
      (_state (process_all [":me!u@h JOIN #x"; ":srv 353 me = #x :a b";
                            ":srv 366 me #x :End of names"] registered)) !! "#x"
  = Some {[ "a"; "b" ]}
  ∧ calls_of [":me!u@h JOIN #x"; ":srv 353 me = #x :a b"] registered
    = [handle_response 353 ":srv 353 me = #x :a b"]
  ∧ calls_of [":me!u@h JOIN #x"; ":srv 353 me = #x :a b";
              ":srv 366 me #x :End of names"] registered
    = [handle_response 353 ":srv 353 me = #x :a b";
       handle_response 366 ":srv 366 me #x :End of names"; handle_own_join "#x"].
Proof.
  apply (join_handshake ":me!u@h JOIN #x" ":srv 353 me = #x :a b"
           ":srv 366 me #x :End of names" registered "#x" "a" "b"
           (Some "me!u@h") [] (Some "u") (Some "h")
           (Some "srv") ["me"; "="; "#x"; "a b"] (Some "srv") "me" ["End of names"]);
    reflexivity.
Defined.




Lemma join_of_other_in_unknown_channel_raises_witness :
  is_Some (_pending_channel_info joining !! "#x")
  ∧ process ":other!u@h JOIN #x" joining = Outcome [] joining (Raise KeyError).
Proof.
  split; [vm_compute; eauto|].
  apply (join_of_other_in_unknown_channel_raises ":other!u@h JOIN #x" joining
           (Some "other!u@h") "#x" [] "other" (Some "u") (Some "h"));
    [reflexivity | reflexivity | reflexivity | vm_compute; congruence | reflexivity].
Defined.

(** ** Decoding and line splitting *)

Import Codec.
Local Open Scope list_scope.

Lemma scan_cons b1 r1 :
  scan (b1 :: r1) =
      if b1 <? 128 then Char b1 :: scan r1
      else if b1 <? 194 then Malformed invalid_start_byte :: scan r1
      else if b1 <? 224 then
        match r1 with
        | [] => [Malformed unexpected_end_of_data]
        | b2 :: r2 =>
            if continuation b2 then Char ((b1 - 192) * 64 + (b2 - 128)) :: scan r2
            else Malformed invalid_continuation_byte :: scan r1
        end
      else if b1 <? 240 then
        match r1 with
        | [] => [Malformed unexpected_end_of_data]
        | b2 :: r2 =>
            if second_of_3 b1 b2 then
              match r2 with
              | [] => [Malformed unexpected_end_of_data]
              | b3 :: r3 =>
                  if continuation b3 then
                    Char ((b1 - 224) * 4096 + (b2 - 128) * 64 + (b3 - 128)) :: scan r3
                  else Malformed invalid_continuation_byte :: scan r2
              end
            else Malformed invalid_continuation_byte :: scan r1
        end
      else if b1 <? 245 then
        match r1 with
        | [] => [Malformed unexpected_end_of_data]
        | b2 :: r2 =>
            if second_of_4 b1 b2 then
              match r2 with
              | [] => [Malformed unexpected_end_of_data]
              | b3 :: r3 =>
                  if continuation b3 then
                    match r3 with
                    | [] => [Malformed unexpected_end_of_data]
                    | b4 :: r4 =>
                        if continuation b4 then
                          Char ((b1 - 240) * 262144 + (b2 - 128) * 4096
                                + (b3 - 128) * 64 + (b4 - 128)) :: scan r4
                        else Malformed invalid_continuation_byte :: scan r3
                    end
                  else Malformed invalid_continuation_byte :: scan r2
              end
            else Malformed invalid_continuation_byte :: scan r1
        end
      else Malformed invalid_start_byte :: scan r1.
Proof. reflexivity. Qed.







Ltac arith := simpl in *; Z.div_mod_to_equations; lia.

Ltac compare_all :=
  repeat match goal with
  | H : context [?x <? ?y] |- _ => destruct (Z.ltb_spec x y); simpl in H
  | H : context [?x <=? ?y] |- _ => destruct (Z.leb_spec x y); simpl in H
  | H : context [?x =? ?y] |- _ => destruct (Z.eqb_spec x y); simpl in H
  | |- context [?x <? ?y] => destruct (Z.ltb_spec x y); try (exfalso; arith); simpl
  | |- context [?x <=? ?y] => destruct (Z.leb_spec x y); try (exfalso; arith); simpl
  | |- context [?x =? ?y] => destruct (Z.eqb_spec x y); try (exfalso; arith); simpl
  end.

Lemma scan_encode_char c bs rest :
  encode_char c = Some bs → scan (bs ++ rest) = Char c :: scan rest.
Proof.
  unfold encode_char, scalar. intros He.
  compare_all; simplify_eq; cbn [app]; rewrite scan_cons;
    unfold second_of_3, second_of_4, continuation; compare_all.
  all: try (f_equal; f_equal; arith).
Qed.

Lemma scan_encode l : ∀ bs rest,
  encode l = Some bs → scan (bs ++ rest) = map Char l ++ scan rest.
Proof.
  induction l as [|c l IH]; intros bs rest He; simpl in He.
  - by simplify_eq.
  - destruct (encode_char c) as [b|] eqn:Ec; [|done].
    destruct (encode l) as [bs'|] eqn:El; [|done].
    simplify_eq. rewrite <- app_assoc.
    rewrite (scan_encode_char _ _ _ Ec). simpl. f_equal. by apply IH.
Qed.

Lemma replaced_chars l items : replaced (map Char l ++ items) = l ++ replaced items.
Proof. induction l as [|c l IH]; [done|]. simpl. by rewrite <- IH. Qed.

Lemma replaced_encoded l bs :
  encode l = Some bs → replaced (scan bs) = l.
Proof.
  intros He. rewrite <- (app_nil_r bs), (scan_encode _ _ [] He), replaced_chars.
  simpl. apply app_nil_r.
Qed.



Lemma splitlines_from_plain l : ∀ cur Y,
  plain l = true →
  splitlines_from cur (l ++ CR :: LF :: Y) = (cur ++ l) :: splitlines_from [] Y.
Proof.
  induction l as [|c l IH]; intros cur Y Hp.
  - simpl. by rewrite app_nil_r.
  - simpl in Hp. apply andb_true_iff in Hp as [Hc Hl].
    apply andb_true_iff in Hc as [_ Hb]. apply negb_true_iff in Hb.
    rewrite <- app_comm_cons. cbn [splitlines_from]. rewrite Hb.
    assert ((c =? CR) = false) as ->.
    { apply Z.eqb_neq. intros ->. done. }
    rewrite IH by done. by rewrite <- app_assoc.
Qed.

Lemma splitlines_framed lines :
  forallb plain lines = true → splitlines_from [] (framed lines) = lines.
Proof.
  induction lines as [|l lines IH]; intros Hp; [done|].
  simpl in Hp. apply andb_true_iff in Hp as [Hl Hp].
  unfold framed. simpl. rewrite <- app_assoc. simpl.
  rewrite splitlines_from_plain by done. simpl. f_equal. by apply IH.
Qed.


(** ** The connection *)

(** decoding with the connection's handler *)
Lemma decode_items_replaces items : ∀ c,
  Connection.decode_items Connection._decoding_error_handler items c
  = (Connection.Build (Connection.loop c) (Connection._transport c)
       (Connection.log c ++ Connection.diagnostics items)
       (Connection.initiations c) (Connection.dispatched c) (Connection.shutdowns c),
     Ok (replaced items)).
Proof.
  induction items as [|[ch|r] items IH]; intros c.
  - simpl. rewrite app_nil_r. by destruct c.
  - simpl. by rewrite IH.
  - cbn [Connection.decode_items]. unfold Connection._decoding_error_handler.
    cbv zeta. rewrite IH. simpl. by rewrite <- !app_assoc.
Qed.

Section Client.
Variable handle_raises : str → bool.

Lemma dispatch_lines_calm lines : ∀ c,
  (∀ m, m ∈ lines → handle_raises m = false) →
  Connection.dispatched (Connection.dispatch_lines handle_raises lines c).1
  = Connection.dispatched c ++ lines
  ∧ Connection.shutdowns (Connection.dispatch_lines handle_raises lines c).1
    = Connection.shutdowns c
  ∧ (Connection.dispatch_lines handle_raises lines c).2 = Ok tt.
Proof.
  induction lines as [|m lines IH]; intros c Hc.
  - simpl. by rewrite app_nil_r.
  - cbn [Connection.dispatch_lines]. cbv zeta. unfold Connection.message_dispatching.
    rewrite Hc by (apply elem_of_cons; by left).
    destruct (IH (Connection.Build
      (Connection.loop (Connection.logging (Connection.Log Connection.DEBUG "Incoming message: " m) c))
      (Connection._transport (Connection.logging (Connection.Log Connection.DEBUG "Incoming message: " m) c))
      (Connection.log (Connection.logging (Connection.Log Connection.DEBUG "Incoming message: " m) c))
      (Connection.initiations (Connection.logging (Connection.Log Connection.DEBUG "Incoming message: " m) c))
      (Connection.dispatched (Connection.logging (Connection.Log Connection.DEBUG "Incoming message: " m) c) ++ [m])
      (Connection.shutdowns (Connection.logging (Connection.Log Connection.DEBUG "Incoming message: " m) c))))
      as (E1 & E2 & E3).
    { intros m' Hm'. apply Hc. apply elem_of_cons. by right. }
    rewrite E1, E2, E3. simpl. by rewrite <- app_assoc.
Qed.

End Client.

Import Session.


(** Once the loop has exited, [terminate] does nothing and [send_message]
    raises [NotConnectedError]. *)
Lemma terminate_not_running c :
  Loop.is_running (Connection.loop c) = false → Connection.terminate c = c.
Proof. intros Hr. unfold Connection.terminate. by rewrite Hr. Qed.

Lemma send_message_not_running message c :
  Loop.is_running (Connection.loop c) = false →
  Connection.send_message message c = (c, Raise (NotConnectedError "TODO")).
Proof. intros Hr. unfold Connection.send_message. by rewrite Hr. Qed.

Lemma terminate_stops_after_batch c :
  Loop.is_running (Connection.loop (Connection.batch_done (Connection.terminate c))) = false.
Proof.
  unfold Connection.terminate, Loop.is_running.
  destruct (Loop.running (Connection.loop c)) eqn:Hr; simpl.
  - reflexivity.
  - unfold Connection.batch_done, Loop.batch_done. simpl.
    destruct (Loop.stopping (Connection.loop c)); simpl; [reflexivity|exact Hr].
Qed.

(** C5: on a connection whose loop is running, [terminate] called twice
    before the loop has finished its batch of callbacks calls the shutdown
    callback twice: [stop] only asks the loop to exit, [is_running] is still
    true at the second call. *)
Lemma terminate_twice_shuts_down_twice :
  Loop.is_running (Connection.loop live) = true
  ∧ Connection.shutdowns live = 0%nat
  ∧ Connection.shutdowns (Connection.terminate (Connection.terminate live)) = 2%nat.
Proof. repeat split. Qed.

(** C6: on a connection whose loop is running, [send_message] called after
    [terminate], before the loop has finished its batch of callbacks, does
    not raise: the line is encoded and written to the transport. *)
Lemma send_after_terminate_is_written :
  Connection.send_message quit (Connection.terminate live)
  = (Connection.Build (Loop.Build true true) (Some [[81; 85; 73; 84; 13; 10]])
       [Connection.Log Connection.DEBUG "Sending message: " quit] 1 [] 1,
     Ok tt).
Proof. reflexivity. Qed.

(** * Further properties *)

Import Lifecycle Cases.

(** ** How [process] dispatches *)

Section Commands.
Context {tokenizer : Parsing} {errors : Err}.

(** The branch [process] takes on each command. *)
Lemma process_command message p prefix command params (m : M unit) :
  State.connected (_state p) = true →
  parse message = Ok (prefix, command, params) →
  three_digits_match command = false →
  (if bool_decide (command = Cmd.PING) then _process_ping params message
   else if bool_decide (command = Cmd.PRIVMSG) then _process_privmsg prefix params message
   else if bool_decide (command = Cmd.JOIN) then _process_join prefix params
   else if bool_decide (command = Cmd.PART) then _process_part prefix params
   else if bool_decide (command = Cmd.MODE) then _process_mode prefix params message
   else if bool_decide (command = Cmd.KICK) then _process_kick prefix params
   else if bool_decide (command = Cmd.NICK) then _process_nick prefix params
   else if bool_decide (command = Cmd.TOPIC) then _process_topic prefix params
   else if bool_decide (command = Cmd.QUIT) then _process_quit prefix params
   else raise (MessageHandlingError message)) = m →
  process message p = try_except m p.
Proof.
  intros Hc Hp Hd Hm. rewrite (process_parsed _ _ _ _ _ Hc Hp), Hd, Hm. reflexivity.
Qed.

Lemma process_numeric message p prefix command params num :
  State.connected (_state p) = true →
  parse message = Ok (prefix, command, params) →
  three_digits_match command = true →
  int command = Some num →
  process message p
  = try_except
      (if (0 <=? num) && (num <=? 399) then
         _process_numeric_reply num prefix params message
       else if (400 <=? num) && (num <=? 599) then
         _process_numeric_error num params message
       else raise (MessageHandlingError message)) p.
Proof.
  intros Hc Hp Hd Hi. rewrite (process_parsed _ _ _ _ _ Hc Hp), Hd, Hi. reflexivity.
Qed.

Lemma try_except_ok (m : M unit) p cs q :
  m p = Outcome cs q (Ok tt) → try_except m p = Outcome cs q (Ok tt).
Proof. intros E. unfold try_except. by rewrite E. Qed.


Lemma try_except_escapes (m : M unit) p cs q e :
  m p = Outcome cs q (Raise e) →
  (∀ s, e ≠ MessageHandlingError s) → (∀ s, e ≠ ParserError s) →
  try_except m p = Outcome cs q (Raise e).
Proof.
  intros E H1 H2. unfold try_except. rewrite E. simpl.
  destruct e; try done; [by destruct (H1 msg)|by destruct (H2 msg)].
Qed.



(** A line the tokenizer rejects with a [ParserError] is dropped: nothing is
    called on the handler, nothing changes, nothing is raised. *)
Theorem parser_error_discarded message p e :
  State.connected (_state p) = true →
  parse message = Raise (ParserError e) →
  process message p = Outcome [] p (Ok tt).
Proof.
  intros Hc Hp. unfold process. rewrite state_bind, Hc.
  unfold try_except, dispatch, mbind, M_bind, bind, lift. rewrite Hp. reflexivity.
Qed.

(** Whatever the line and the state, [process] never lets a
    [MessageHandlingError] or a [ParserError] out. *)
Theorem handled_errors_never_escape message p e :
  value (process message p) ≠ Raise (MessageHandlingError e)
  ∧ value (process message p) ≠ Raise (ParserError e).
Proof.
  unfold process. rewrite state_bind.
  destruct (State.connected (_state p)); [|by split].
  unfold try_except.
  destruct (dispatch message p) as [cs q [[]|[]]]; by split.
Qed.

End Commands.



Lemma parser_error_discarded_witness :
  process "" registered = Outcome [] registered (Ok tt).
Proof.
  apply (parser_error_discarded "" registered ""); reflexivity.
Defined.

(** ** The commands one by one *)

Section Methods.
Context {tokenizer : Parsing} {errors : Err}.

(** A PING hands its first parameter to [handle_ping], however many
    parameters follow. *)
Theorem ping_forwards_first_parameter message p prefix payload rest :
  State.connected (_state p) = true →
  parse message = Ok (prefix, Cmd.PING, payload :: rest) →
  process message p = Outcome [handle_ping payload] p (Ok tt).
Proof.
  intros Hc Hp.
  rewrite (process_command _ _ _ _ _ (_process_ping (payload :: rest) message)
             Hc Hp eq_refl eq_refl).
  apply try_except_ok. unfold _process_ping. run. by destruct p.
Qed.



Opaque truthy.

(** A PRIVMSG of another user to a channel is handed to
    [handle_channel_message] when the client occupies the channel and is
    dropped without a word when it does not. *)
Theorem privmsg_to_channel message p prefix target text sender user host channel :
  State.connected (_state p) = true →
  parse message = Ok (Some prefix, Cmd.PRIVMSG, [target; text]) →
  prefix ≠ "" →
  parse_user_prefix (Some prefix) = Ok (sender, user, host) →
  sender ≠ "" →
  sender ≠ State.nick (_state p) →
  parse_message_target target = Ok [Target.Build None (Some channel)] →
  channel ≠ "" →
  process message p
  = Outcome (if contains (State.channels (_state p)) channel
             then [handle_channel_message channel text sender] else [])
            p (Ok tt).
Proof.
  intros Hc Hp Hpre Hu Hs Hn Ht Hch.
  rewrite (process_command _ _ _ _ _ (_process_privmsg (Some prefix) [target; text] message)
             Hc Hp eq_refl eq_refl).
  apply try_except_ok. unfold _process_privmsg, nick_of_prefix. run.
  rewrite (truthy_true _ Hpre), Hu. simpl.
  rewrite (truthy_true _ Hs), (bool_decide_eq_false_2 _ Hn). simpl.
  rewrite Ht. simpl. rewrite (truthy_true _ Hch). simpl.
  unfold contains.
  destruct (bool_decide (is_Some (State.channels (_state p) !! channel)));
    run; by destruct p.
Qed.

Transparent truthy.

(** The client's own JOIN for a channel it already occupies does nothing. *)
Theorem own_join_of_occupied_channel_ignored message p prefix channel rest user host :
  State.connected (_state p) = true →
  parse message = Ok (prefix, Cmd.JOIN, channel :: rest) →
  parse_user_prefix prefix = Ok (State.nick (_state p), user, host) →
  is_Some (State.channels (_state p) !! channel) →
  process message p = Outcome [] p (Ok tt).
Proof.
  intros Hc Hp Hu Ho.
  rewrite (process_command _ _ _ _ _ (_process_join prefix (channel :: rest))
             Hc Hp eq_refl eq_refl).
  apply try_except_ok. unfold _process_join, nick_of_prefix. run.
  rewrite Hu. simpl. rewrite bool_decide_eq_true_2 by done.
  rewrite (bool_decide_eq_true_2 _ Ho). simpl. by destruct p.
Qed.

(** The client's own JOIN for a channel it does not occupy makes a new
    pending entry for it; an entry that was there, with the names collected
    so far, is replaced. *)
Theorem own_join_resets_pending message p prefix channel rest user host :
  State.connected (_state p) = true →
  parse message = Ok (prefix, Cmd.JOIN, channel :: rest) →
  parse_user_prefix prefix = Ok (State.nick (_state p), user, host) →
  State.channels (_state p) !! channel = None →
  process message p
  = Outcome []
      (Build (_state p) (<[channel := ChannelInfo.new channel]> (_pending_channel_info p)))
      (Ok tt).
Proof.
  intros Hc Hp Hu Ho.
  rewrite (process_command _ _ _ _ _ (_process_join prefix (channel :: rest))
             Hc Hp eq_refl eq_refl).
  apply try_except_ok. unfold _process_join, nick_of_prefix. run.
  rewrite Hu. simpl. rewrite bool_decide_eq_true_2 by done.
  rewrite Ho. simpl. reflexivity.
Qed.

(** The JOIN of another user for an occupied channel adds the nick to that
    channel, leaves every other channel and the pending table alone, and
    calls [handle_join]. *)
Theorem join_of_other_adds_nick message p prefix channel rest nick user host info :
  State.connected (_state p) = true →
  parse message = Ok (prefix, Cmd.JOIN, channel :: rest) →
  parse_user_prefix prefix = Ok (nick, user, host) →
  nick ≠ State.nick (_state p) →
  State.channels (_state p) !! channel = Some info →
  ∃ p',
    process message p = Outcome [handle_join channel nick] p' (Ok tt)
    ∧ _pending_channel_info p' = _pending_channel_info p
    ∧ (ChannelInfo.nicks <$> State.channels (_state p') !! channel
       = Some (ChannelInfo.nicks info ∪ {[ nick ]}))
    ∧ ∀ c, c ≠ channel →
        State.channels (_state p') !! c = State.channels (_state p) !! c.
Proof.
  intros Hc Hp Hu Hn Ho.
  rewrite (process_command _ _ _ _ _ (_process_join prefix (channel :: rest))
             Hc Hp eq_refl eq_refl).
  eexists. split.
  - apply try_except_ok. unfold _process_join, nick_of_prefix. run.
    rewrite Hu. simpl. rewrite bool_decide_eq_false_2 by congruence.
    rewrite Ho. simpl. reflexivity.
  - simpl. split; [done|]. split.
    + rewrite lookup_insert_eq. simpl. f_equal.
      by rewrite (right_id_L ∅ (∪)).
    + intros c Hne. by rewrite lookup_insert_ne.
Qed.

(** The client's own PART removes the channel from [channels] and calls
    [handle_own_part], whether or not the channel was there. *)
Theorem own_part_removes_channel message p prefix channel rest user host :
  State.connected (_state p) = true →
  parse message = Ok (prefix, Cmd.PART, channel :: rest) →
  parse_user_prefix prefix = Ok (State.nick (_state p), user, host) →
  process message p
  = Outcome [handle_own_part channel]
      (Build (State.set_channels (delete channel (State.channels (_state p))) (_state p))
             (_pending_channel_info p))
      (Ok tt).
Proof.
  intros Hc Hp Hu.
  rewrite (process_command _ _ _ _ _ (_process_part prefix (channel :: rest))
             Hc Hp eq_refl eq_refl).
  apply try_except_ok. unfold _process_part, nick_of_prefix. run.
  rewrite Hu. simpl. rewrite bool_decide_eq_true_2 by done.
  destruct (bool_decide (is_Some (State.channels (_state p) !! channel))) eqn:Ho; simpl.
  - reflexivity.
  - apply bool_decide_eq_false in Ho.
    rewrite delete_id by (by apply eq_None_not_Some).
    by destruct p as [[] ?].
Qed.

(** A KICK of the client removes the channel from [channels] and calls
    [handle_own_kick] with the initiator and the reason, when there is one. *)
Theorem own_kick_removes_channel message p prefix channel rest initiator user host :
  State.connected (_state p) = true →
  parse message = Ok (prefix, Cmd.KICK, channel :: State.nick (_state p) :: rest) →
  parse_user_prefix prefix = Ok (initiator, user, host) →
  process message p
  = Outcome [handle_own_kick channel initiator (rest !! 0%nat)]
      (Build (State.set_channels (delete channel (State.channels (_state p))) (_state p))
             (_pending_channel_info p))
      (Ok tt).
Proof.
  intros Hc Hp Hu.
  rewrite (process_command _ _ _ _ _
             (_process_kick prefix (channel :: State.nick (_state p) :: rest))
             Hc Hp eq_refl eq_refl).
  apply try_except_ok. unfold _process_kick, nick_of_prefix.
  rewrite bool_decide_eq_false_2 by (cbn [length]; lia).
  run. rewrite Hu. simpl. rewrite bool_decide_eq_true_2 by done.
  destruct (bool_decide (is_Some (State.channels (_state p) !! channel))) eqn:Ho; simpl.
  - reflexivity.
  - apply bool_decide_eq_false in Ho.
    rewrite delete_id by (by apply eq_None_not_Some).
    by destruct p as [[] ?].
Qed.
End Methods.

Section Membership.
Context {tokenizer : Parsing} {errors : Err}.

(** A NICK replaces the old nick by the new one in every channel the old nick
    is in, leaves the other channels as they are, and changes the client's
    own nick exactly when the old nick was the client's. *)
Theorem nick_change_renames_everywhere message p prefix new rest old user host :
  State.connected (_state p) = true →
  parse message = Ok (prefix, Cmd.NICK, new :: rest) →
  parse_user_prefix prefix = Ok (old, user, host) →
  ∃ p',
    process message p
    = Outcome [if bool_decide (old = State.nick (_state p))
               then handle_own_nick_change old new else handle_nick_change old new]
              p' (Ok tt)
    ∧ State.nick (_state p')
      = (if bool_decide (old = State.nick (_state p)) then new else State.nick (_state p))
    ∧ dom (State.channels (_state p')) = dom (State.channels (_state p))
    ∧ ∀ ch info', State.channels (_state p') !! ch = Some info' →
        ∃ info, State.channels (_state p) !! ch = Some info
          ∧ ∀ n, n ∈ ChannelInfo.nicks info'
                 ↔ (n ∈ ChannelInfo.nicks info ∧ n ≠ old)
                   ∨ (n = new ∧ old ∈ ChannelInfo.nicks info).
Proof.
  intros Hc Hp Hu.
  rewrite (process_command _ _ _ _ _ (_process_nick prefix (new :: rest))
             Hc Hp eq_refl eq_refl).
  exists (Build
    (if bool_decide (old = State.nick (_state p))
     then State.set_nick new
            (State.set_channels (rename_nick old new <$> State.channels (_state p))
               (_state p))
     else State.set_channels (rename_nick old new <$> State.channels (_state p)) (_state p))
    (_pending_channel_info p)).
  assert (Hch : State.channels
      (if bool_decide (old = State.nick (_state p))
       then State.set_nick new
              (State.set_channels (rename_nick old new <$> State.channels (_state p))
                 (_state p))
       else State.set_channels (rename_nick old new <$> State.channels (_state p))
              (_state p))
      = rename_nick old new <$> State.channels (_state p))
    by (by destruct (bool_decide (old = State.nick (_state p)))).
  cbn [_state]. rewrite Hch. split; [|split; [|split]].
  - apply try_except_ok. unfold _process_nick, nick_of_prefix. run.
    rewrite Hu. simpl.
    destruct (bool_decide (old = State.nick (_state p))) eqn:E; simpl; reflexivity.
  - by destruct (bool_decide (old = State.nick (_state p))).
  - apply dom_fmap_L.
  - intros ch info' L. rewrite lookup_fmap in L.
    destruct (State.channels (_state p) !! ch) as [info|]; [|done].
    simpl in L. simplify_eq. exists info. split; [done|].
    intros n. unfold rename_nick.
    destruct (bool_decide (old ∈ ChannelInfo.nicks info)) eqn:E.
    + apply bool_decide_eq_true in E. simpl. set_solver.
    + apply bool_decide_eq_false in E. set_solver.
Qed.


(** A TOPIC for an occupied channel sets that channel's topic and nothing
    else; the handler is not called. *)
Theorem topic_of_occupied_channel message p prefix channel topic rest info :
  State.connected (_state p) = true →
  parse message = Ok (prefix, Cmd.TOPIC, channel :: topic :: rest) →
  is_channel_name channel = true →
  _pending_channel_info p !! channel = None →
  State.channels (_state p) !! channel = Some info →
  ∃ p',
    process message p = Outcome [] p' (Ok tt)
    ∧ _pending_channel_info p' = _pending_channel_info p
    ∧ State.channels (_state p') !! channel
      = Some (ChannelInfo.Build (ChannelInfo.name info) (Some topic) (ChannelInfo.nicks info))
    ∧ ∀ c, c ≠ channel →
        State.channels (_state p') !! c = State.channels (_state p) !! c.
Proof.
  intros Hc Hp Hn Hpd Ho.
  rewrite (process_command _ _ _ _ _ (_process_topic prefix (channel :: topic :: rest))
             Hc Hp eq_refl eq_refl).
  eexists. split.
  - apply try_except_ok. unfold _process_topic, _set_topic. run.
    rewrite Hn, Hpd, Ho. simpl. reflexivity.
  - simpl. split; [done|]. split.
    + by rewrite lookup_alter_eq, Ho.
    + intros c Hne. by rewrite lookup_alter_ne.
Qed.

(** The welcome reply marks the client registered, takes the server from the
    prefix and the nick from the first parameter, and calls
    [handle_response], then [handle_register]. *)
Theorem welcome_registers message p prefix command nick rest :
  State.connected (_state p) = true →
  parse message = Ok (prefix, command, nick :: rest) →
  three_digits_match command = true →
  int command = Some Rpl.WELCOME →
  process message p
  = Outcome [handle_response Rpl.WELCOME message; handle_register]
      (Build (State.set_nick nick
                (State.set_server prefix (State.set_registered true (_state p))))
             (_pending_channel_info p))
      (Ok tt).
Proof.
  intros Hc Hp Hd Hi. rewrite (process_numeric _ _ _ _ _ _ Hc Hp Hd Hi).
  apply try_except_ok. reflexivity.
Qed.


(** An end-of-names reply for a channel that is not pending only reaches
    [handle_response]: nothing is added to [channels] and
    [handle_own_join] is not called. *)
Theorem end_of_names_without_pending_entry message p prefix command target channel rest :
  State.connected (_state p) = true →
  parse message = Ok (prefix, command, target :: channel :: rest) →
  three_digits_match command = true →
  int command = Some Rpl.ENDOFNAMES →
  _pending_channel_info p !! channel = None →
  process message p = Outcome [handle_response Rpl.ENDOFNAMES message] p (Ok tt).
Proof.
  intros Hc Hp Hd Hi Hpd. rewrite (process_numeric _ _ _ _ _ _ Hc Hp Hd Hi).
  apply try_except_ok. simpl. unfold _process_numeric_reply. run.
  destruct (is_channel_name channel); simpl; [rewrite Hpd; simpl|]; by destruct p.
Qed.

End Membership.

Section Modes.
Context {tokenizer : Parsing} {errors : Err}.

Lemma list_remove_absent x l : x ∉ l → list_remove x l = None.
Proof.
  induction l as [|y l IH]; intros Hx; [done|].
  apply not_elem_of_cons in Hx as [Hne Hx]. simpl.
  rewrite bool_decide_eq_false_2 by congruence. by rewrite IH.
Qed.

Lemma list_remove_appended x l : x ∉ l → list_remove x (l ++ [x]) = Some l.
Proof.
  induction l as [|y l IH]; intros Hx; simpl.
  - by rewrite bool_decide_eq_true_2.
  - apply not_elem_of_cons in Hx as [Hne Hx].
    rewrite bool_decide_eq_false_2 by congruence. by rewrite IH.
Qed.

Opaque truthy.

(** [process] on a MODE message for a channel: the loop over the mode
    changes, inside the two [except] clauses. *)
Lemma process_channel_mode message p prefix target modes tnick channel others
    initiator user host changes :
  State.connected (_state p) = true →
  parse message = Ok (prefix, Cmd.MODE, target :: modes) →
  parse_message_target target = Ok (Target.Build tnick (Some channel) :: others) →
  channel ≠ "" →
  parse_user_prefix prefix = Ok (initiator, user, host) →
  parse_channel_mode_params modes = Ok changes →
  process message p = try_except (channel_mode_changes channel initiator changes) p.
Proof.
  intros Hc Hp Ht Hch Hu Hm.
  rewrite (process_command _ _ _ _ _ (_process_mode prefix (target :: modes) message)
             Hc Hp eq_refl eq_refl).
  unfold try_except, _process_mode, _process_channel_mode, nick_of_prefix. run.
  rewrite Ht. simpl. rewrite Hu. simpl. rewrite (truthy_true _ Hch), Hm. simpl.
  destruct (channel_mode_changes channel initiator changes p) as [cs q [[]|e]];
    simpl; [by rewrite ?app_nil_r|].
  by destruct e.
Qed.
Transparent truthy.

(** A MODE that takes the operator flag from the client in a channel that is
    not in [operator_in] makes [process] raise [ValueError], before any
    handler call for that change. *)
Theorem own_lost_op_without_flag_raises message p prefix target modes tnick channel
    others initiator user host rest more :
  State.connected (_state p) = true →
  parse message = Ok (prefix, Cmd.MODE, target :: modes) →
  parse_message_target target = Ok (Target.Build tnick (Some channel) :: others) →
  channel ≠ "" →
  parse_user_prefix prefix = Ok (initiator, user, host) →
  parse_channel_mode_params modes
  = Ok (ModeChange.Build ChannelMode.OPERATOR false (State.nick (_state p) :: rest)
          :: more) →
  channel ∉ State.operator_in (_state p) →
  process message p = Outcome [] p (Raise ValueError).
Proof.
  intros Hc Hp Ht Hch Hu Hm Hin.
  rewrite (process_channel_mode _ _ _ _ _ _ _ _ _ _ _ _ Hc Hp Ht Hch Hu Hm).
  apply try_except_escapes; [|done|done].
  cbn [channel_mode_changes]. unfold channel_mode_change. run.
  rewrite bool_decide_eq_true_2 by done.
  by rewrite (list_remove_absent _ _ Hin).
Qed.

(** A MODE that gives the client the operator flag and takes it back leaves
    [operator_in] as it was, when the channel was not in it, and calls
    [handle_own_got_op], then [handle_own_lost_op]. *)
Theorem own_op_given_and_taken message p prefix target modes tnick channel
    others initiator user host rest1 rest2 :
  State.connected (_state p) = true →
  parse message = Ok (prefix, Cmd.MODE, target :: modes) →
  parse_message_target target = Ok (Target.Build tnick (Some channel) :: others) →
  channel ≠ "" →
  parse_user_prefix prefix = Ok (initiator, user, host) →
  parse_channel_mode_params modes
  = Ok [ModeChange.Build ChannelMode.OPERATOR true (State.nick (_state p) :: rest1);
        ModeChange.Build ChannelMode.OPERATOR false (State.nick (_state p) :: rest2)] →
  channel ∉ State.operator_in (_state p) →
  process message p
  = Outcome [handle_own_got_op channel initiator; handle_own_lost_op channel initiator]
            p (Ok tt).
Proof.
  intros Hc Hp Ht Hch Hu Hm Hin.
  rewrite (process_channel_mode _ _ _ _ _ _ _ _ _ _ _ _ Hc Hp Ht Hch Hu Hm).
  apply try_except_ok.
  cbn [channel_mode_changes]. unfold channel_mode_change. run.
  rewrite bool_decide_eq_true_2 by done. simpl.
  rewrite bool_decide_eq_true_2 by done.
  rewrite (list_remove_appended _ _ Hin). simpl.
  by destruct p as [[] ?].
Qed.

Lemma channel_mode_changes_ignored channel initiator changes p :
  Forall (fun mc => ModeChange.mode mc ≠ ChannelMode.OPERATOR
                    ∧ ModeChange.mode mc ≠ ChannelMode.VOICE) changes →
  channel_mode_changes channel initiator changes p = Outcome [] p (Ok tt).
Proof.
  induction 1 as [|mc changes [Ho Hv] _ IH]; [done|].
  cbn [channel_mode_changes]. unfold channel_mode_change.
  rewrite (bool_decide_eq_false_2 _ Ho), (bool_decide_eq_false_2 _ Hv).
  unfold mbind, M_bind, bind, mret, M_ret, ret. cbn [value final calls].
  by rewrite IH.
Qed.

(** Channel mode changes other than operator and voice are passed over: no
    handler call, no change, and no report as unhandled. *)
Theorem other_modes_ignored message p prefix target modes tnick channel
    others initiator user host changes :
  State.connected (_state p) = true →
  parse message = Ok (prefix, Cmd.MODE, target :: modes) →
  parse_message_target target = Ok (Target.Build tnick (Some channel) :: others) →
  channel ≠ "" →
  parse_user_prefix prefix = Ok (initiator, user, host) →
  parse_channel_mode_params modes = Ok changes →
  Forall (fun mc => ModeChange.mode mc ≠ ChannelMode.OPERATOR
                    ∧ ModeChange.mode mc ≠ ChannelMode.VOICE) changes →
  process message p = Outcome [] p (Ok tt).
Proof.
  intros Hc Hp Ht Hch Hu Hm Hf.
  rewrite (process_channel_mode _ _ _ _ _ _ _ _ _ _ _ _ Hc Hp Ht Hch Hu Hm).
  apply try_except_ok. by apply channel_mode_changes_ignored.
Qed.


Lemma zipped_kwargs_fresh (l : list (string * string)) name : ∀ acc : gmap string string,
  name ∉ l.*1 →
  foldl (fun kwargs nv => <[nv.1 := nv.2]> kwargs) acc l !! name = acc !! name.
Proof.
  induction l as [|[k v] l IH]; intros acc Hn; [done|].
  cbn [foldl]. rewrite fmap_cons in Hn. apply not_elem_of_cons in Hn as [Hne Hn].
  rewrite IH by done. by rewrite lookup_insert_ne.
Qed.

Lemma zipped_kwargs_bound (l : list (string * string)) name value :
  ∀ acc : gmap string string,
  NoDup l.*1 → (name, value) ∈ l →
  foldl (fun kwargs nv => <[nv.1 := nv.2]> kwargs) acc l !! name = Some value.
Proof.
  induction l as [|[k v] l IH]; intros acc Hd Hin.
  - by apply elem_of_nil in Hin.
  - cbn [foldl]. rewrite fmap_cons in Hd. apply NoDup_cons in Hd as [Hk Hd].
    apply elem_of_cons in Hin as [Heq|Hin].
    + simplify_eq. rewrite zipped_kwargs_fresh by done. apply lookup_insert_eq.
    + by apply IH.
Qed.

(** A numeric error whose parameters, the first one dropped, are as many as
    the names of its schema is reported by one call of [handle_error] that
    binds each name to the parameter at its position, the names being
    distinct. *)
Theorem numeric_error_positional message p prefix command params num names :
  State.connected (_state p) = true →
  parse message = Ok (prefix, command, params) →
  three_digits_match command = true →
  int command = Some num →
  400 <= num <= 599 →
  ERROR_PARAMETERS !! num = Some names →
  length (tail params) = length names →
  NoDup names →
  ∃ kwargs,
    process message p = Outcome [handle_error num kwargs] p (Ok tt)
    ∧ ∀ i name value,
        names !! i = Some name → tail params !! i = Some value →
        kwargs !! name = Some value.
Proof.
  intros Hc Hp Hd Hi Hr Hn Hl Hnd.
  exists (zipped_kwargs names (tail params)). split.
  - rewrite (process_numeric _ _ _ _ _ _ Hc Hp Hd Hi).
    replace ((0 <=? num) && (num <=? 399)) with false
      by (symmetry; apply andb_false_iff; right; apply Z.leb_gt; lia).
    replace ((400 <=? num) && (num <=? 599)) with true
      by (symmetry; apply andb_true_iff; split; apply Z.leb_le; lia).
    apply try_except_ok. unfold _process_numeric_error. rewrite Hn.
    rewrite (bool_decide_eq_true_2 _ Hl). reflexivity.
  - intros i name value Hname Hvalue. unfold zipped_kwargs.
    apply zipped_kwargs_bound.
    + rewrite fst_zip; [done|]. rewrite Hl. done.
    + apply list_elem_of_lookup. exists i.
      rewrite lookup_zip_with, Hname. simpl. by rewrite Hvalue.
Qed.

(** A numeric error whose code has no schema makes [process] raise
    [KeyError]; the handler is not called. *)
Theorem numeric_error_unknown_code_raises message p prefix command params num :
  State.connected (_state p) = true →
  parse message = Ok (prefix, command, params) →
  three_digits_match command = true →
  int command = Some num →
  400 <= num <= 599 →
  ERROR_PARAMETERS !! num = None →
  process message p = Outcome [] p (Raise KeyError).
Proof.
  intros Hc Hp Hd Hi Hr Hn.
  rewrite (process_numeric _ _ _ _ _ _ Hc Hp Hd Hi).
  replace ((0 <=? num) && (num <=? 399)) with false
    by (symmetry; apply andb_false_iff; right; apply Z.leb_gt; lia).
  replace ((400 <=? num) && (num <=? 599)) with true
    by (symmetry; apply andb_true_iff; split; apply Z.leb_le; lia).
  apply try_except_escapes; [|done|done].
  unfold _process_numeric_error. by rewrite Hn.
Qed.
End Modes.

(** ** Flags that stay *)

Section Steady.
Context {tokenizer : Parsing} {errors : Err}.

Lemma steady_refl p : steady p p.
Proof. by split. Qed.

Lemma steady_trans p q r : steady p q → steady q r → steady p r.
Proof. intros [E1 R1] [E2 R2]. split; [congruence|auto]. Qed.

Lemma channel_mode_changes_steady channel initiator changes : ∀ p,
  steady p (final (channel_mode_changes channel initiator changes p)).
Proof.
  induction changes as [|mc changes IH]; intros p; [apply steady_refl|].
  cbn [channel_mode_changes]. unfold mbind, M_bind, bind.
  assert (S1 : steady p (final (channel_mode_change channel initiator mc p)))
    by (unfold channel_mode_change; run; cases).
  destruct (value (channel_mode_change channel initiator mc p)); cbn [final]; [|done].
  eapply steady_trans; [exact S1|apply IH].
Qed.

Lemma dispatch_steady message p : steady p (final (dispatch message p)).
Proof.
  unfold dispatch. run.
  destruct (parse message) as [[[prefix command] params]|e]; simpl; [|apply steady_refl].
  repeat case_match; try apply steady_refl.
  all: lazymatch goal with
       | |- context [_process_numeric_reply] =>
           unfold _process_numeric_reply, _set_topic; run; cases
       | |- context [_process_numeric_error] =>
           rewrite numeric_error_final; apply steady_refl
       | |- context [_process_ping] => rewrite ping_final; apply steady_refl
       | |- context [_process_privmsg] => rewrite privmsg_final; apply steady_refl
       | |- context [_process_join] => unfold _process_join, nick_of_prefix; run; cases
       | |- context [_process_part] => unfold _process_part, nick_of_prefix; run; cases
       | |- context [_process_mode] =>
           unfold _process_mode, _process_channel_mode, nick_of_prefix; run; cases;
           apply channel_mode_changes_steady
       | |- context [_process_kick] => unfold _process_kick, nick_of_prefix; run; cases
       | |- context [_process_nick] => unfold _process_nick, nick_of_prefix; run; cases
       | |- context [_process_topic] =>
           unfold _process_topic, _set_topic; run; cases
       | |- context [_process_quit] => unfold _process_quit, nick_of_prefix; run; cases
       end.
Qed.

(** Processing messages never changes [connected] and never takes
    [registered] back. *)
Theorem connected_and_registered_kept messages : ∀ p,
  State.connected (_state (process_all messages p)) = State.connected (_state p)
  ∧ (State.registered (_state p) = true →
     State.registered (_state (process_all messages p)) = true).
Proof.
  induction messages as [|m rest IH]; intros p; [done|].
  cbn [process_all foldl].
  assert (S1 : steady p (final (process m p))).
  { rewrite process_final. destruct (State.connected (_state p));
      [apply dispatch_steady|apply steady_refl]. }
  exact (steady_trans _ _ _ S1 (IH _)).
Qed.
End Steady.

(** ** Blocks and lines *)

Lemma encode_app l1 l2 b1 b2 :
  encode l1 = Some b1 → encode l2 = Some b2 → encode (l1 ++ l2) = Some (b1 ++ b2).
Proof.
  revert b1. induction l1 as [|c l1 IH]; intros b1 H1 H2; simpl in *.
  - by simplify_eq.
  - destruct (encode_char c) as [b|]; [|done].
    destruct (encode l1) as [bs|]; [|done]. simplify_eq.
    rewrite (IH bs eq_refl H2). by rewrite app_assoc.
Qed.

Lemma encode_plain l : plain l = true → is_Some (encode l).
Proof.
  induction l as [|c l IH]; intros Hp; [by eexists|].
  simpl in Hp. apply andb_true_iff in Hp as [Hc Hl].
  apply andb_true_iff in Hc as [Hs _].
  destruct (IH Hl) as [bs Hbs]. simpl. rewrite Hbs.
  unfold encode_char. rewrite Hs. simpl. repeat case_match; by eexists.
Qed.

Lemma splitlines_from_partial l : ∀ cur,
  plain l = true → cur ++ l ≠ [] → splitlines_from cur l = [cur ++ l].
Proof.
  induction l as [|c l IH]; intros cur Hp Hne.
  - rewrite app_nil_r in *. simpl. by destruct cur.
  - simpl in Hp. apply andb_true_iff in Hp as [Hc Hl].
    apply andb_true_iff in Hc as [_ Hb]. apply negb_true_iff in Hb.
    cbn [splitlines_from]. rewrite Hb.
    assert ((c =? CR) = false) as -> by (apply Z.eqb_neq; by intros ->).
    rewrite IH; [by rewrite <- app_assoc|done|by destruct cur].
Qed.

Section Client.
Variable handle_raises : str → bool.

(** What [data_received] does with a block that decodes without a
    malformed run to lines the client accepts. *)
Lemma data_received_calm data text c :
  encode text = Some data →
  (∀ m, m ∈ splitlines text → handle_raises m = false) →
  Connection.dispatched (Connection.data_received handle_raises data c)
  = Connection.dispatched c ++ splitlines text
  ∧ Connection.shutdowns (Connection.data_received handle_raises data c)
    = Connection.shutdowns c.
Proof.
  intros He Hc.
  unfold Connection.data_received, Connection.receive, Connection.decode.
  rewrite decode_items_replaces, (replaced_encoded _ _ He).
  match goal with
  | |- context [Connection.dispatch_lines _ ?ls ?c0] =>
      destruct (dispatch_lines_calm handle_raises ls c0 Hc) as (E1 & E2 & E3);
      destruct (Connection.dispatch_lines handle_raises ls c0) as [c1 r1]
  end.
  simpl in *. subst r1. by split.
Qed.

(** What [send_message] writes for a well-formed line is one chunk that
    [data_received] turns back into that line, dispatched as one message. *)
Theorem sent_line_is_received message c written :
  Loop.is_running (Connection.loop c) = true →
  Connection._transport c = Some written →
  plain message = true →
  handle_raises message = false →
  ∃ data,
    Connection.send_message message c
    = (Connection.Build (Connection.loop c) (Some (written ++ [data]))
         (Connection.log c ++ [Connection.Log Connection.DEBUG "Sending message: " message])
         (Connection.initiations c) (Connection.dispatched c) (Connection.shutdowns c),
       Ok tt)
    ∧ ∀ c', Connection.dispatched (Connection.data_received handle_raises data c')
            = Connection.dispatched c' ++ [message].
Proof.
  intros Hr Ht Hp Hh.
  destruct (encode_plain _ Hp) as [bs Hbs].
  assert (He : encode (message ++ CRLF) = Some (bs ++ [CR; LF]))
    by (by apply encode_app).
  assert (Hs : splitlines (message ++ CRLF) = [message]).
  { unfold splitlines, CRLF. rewrite splitlines_from_plain by done. done. }
  exists (bs ++ [CR; LF]). split.
  - unfold Connection.send_message. rewrite Hr. cbv zeta.
    cbn [Connection._transport Connection.logging]. rewrite Ht, He. reflexivity.
  - intros c'. destruct (data_received_calm _ _ c' He) as [E _].
    + rewrite Hs. intros m Hm. apply list_elem_of_singleton in Hm. by subst.
    + by rewrite E, Hs.
Qed.

(** [data_received] keeps nothing from one block to the next: a line that
    arrives in two blocks is dispatched as two messages. *)
Theorem split_line_is_two_messages l1 l2 d1 d2 c :
  plain l1 = true → l1 ≠ [] → plain l2 = true →
  encode l1 = Some d1 → encode (l2 ++ CRLF) = Some d2 →
  handle_raises l1 = false → handle_raises l2 = false →
  Connection.dispatched
    (Connection.data_received handle_raises d2
       (Connection.data_received handle_raises d1 c))
  = Connection.dispatched c ++ [l1; l2].
Proof.
  intros Hp1 Hn1 Hp2 He1 He2 Hh1 Hh2.
  assert (Hs1 : splitlines l1 = [l1])
    by (unfold splitlines; by rewrite splitlines_from_partial).
  assert (Hs2 : splitlines (l2 ++ CRLF) = [l2])
    by (unfold splitlines, CRLF; by rewrite splitlines_from_plain).
  destruct (data_received_calm _ _ c He1) as [E1 _].
  { rewrite Hs1. intros m Hm. apply list_elem_of_singleton in Hm. by subst. }
  destruct (data_received_calm _ _ (Connection.data_received handle_raises d1 c) He2)
    as [E2 _].
  { rewrite Hs2. intros m Hm. apply list_elem_of_singleton in Hm. by subst. }
  rewrite E2, E1, Hs1, Hs2. by rewrite <- app_assoc.
Qed.

Lemma dispatch_lines_raising before message after : ∀ c,
  (∀ m, m ∈ before → handle_raises m = false) →
  handle_raises message = true →
  ∃ c', Connection.dispatch_lines handle_raises (before ++ message :: after) c
        = (c', Raise ValueError)
    ∧ Connection.dispatched c' = Connection.dispatched c ++ before ++ [message]
    ∧ Connection.shutdowns c' = Connection.shutdowns c
    ∧ Connection.loop c' = Connection.loop c.
Proof.
  induction before as [|m before IH]; intros c Hb Hm.
  - eexists. cbn [app Connection.dispatch_lines]. cbv zeta.
    unfold Connection.message_dispatching. rewrite Hm. split; [reflexivity|]. done.
  - cbn [app Connection.dispatch_lines]. cbv zeta.
    unfold Connection.message_dispatching at 1.
    rewrite (Hb m) by (apply elem_of_cons; by left).
    match goal with
    | |- context [Connection.dispatch_lines _ _ ?c0] =>
        destruct (IH c0) as (c' & E & D & S & L);
          [intros m' Hm'; apply Hb, elem_of_cons; by right|done|]
    end.
    exists c'. rewrite E. split; [done|]. rewrite D, S, L. simpl.
    by rewrite <- app_assoc.
Qed.

(** When the client raises on a line, the lines of the block before it and
    the line itself have been dispatched, the lines after it are not, and
    the shutdown callback is called once if the loop is running. *)
Theorem dispatch_error_stops_block before message after data c :
  forallb plain (before ++ message :: after) = true →
  encode (framed (before ++ message :: after)) = Some data →
  (∀ m, m ∈ before → handle_raises m = false) →
  handle_raises message = true →
  Connection.dispatched (Connection.data_received handle_raises data c)
  = Connection.dispatched c ++ before ++ [message]
  ∧ Connection.shutdowns (Connection.data_received handle_raises data c)
    = (if Loop.is_running (Connection.loop c)
       then S (Connection.shutdowns c) else Connection.shutdowns c).
Proof.
  intros Hp He Hb Hm.
  unfold Connection.data_received, Connection.receive, Connection.decode.
  rewrite decode_items_replaces, (replaced_encoded _ _ He).
  unfold splitlines. rewrite (splitlines_framed _ Hp).
  match goal with
  | |- context [Connection.dispatch_lines _ _ ?c0] =>
      destruct (dispatch_lines_raising before message after c0 Hb Hm)
        as (c' & E & D & S & L)
  end.
  rewrite E. cbv zeta. unfold Connection.terminate.
  cbn [Connection.loop Connection.logging]. rewrite L. cbn [Connection.loop].
  destruct (Loop.is_running (Connection.loop c)); simpl; rewrite D, S; done.
Qed.
End Client.

(** Once the loop has finished the batch of callbacks in which [terminate]
    was called, another [terminate] does not call the shutdown callback
    again and [send_message] raises [NotConnectedError]. *)
Theorem terminate_once_after_loop_exit c :
  Loop.is_running (Connection.loop c) = true →
  Connection.shutdowns
    (Connection.terminate (Connection.batch_done (Connection.terminate c)))
  = S (Connection.shutdowns c)
  ∧ ∀ message,
      Connection.send_message message (Connection.batch_done (Connection.terminate c))
      = (Connection.batch_done (Connection.terminate c), Raise (NotConnectedError "TODO")).
Proof.
  intros Hr. split.
  - rewrite terminate_not_running by apply terminate_stops_after_batch.
    unfold Connection.terminate. by rewrite Hr.
  - intros message. apply send_message_not_running, terminate_stops_after_batch.
Qed.

(** ** The further properties on concrete lines *)

Lemma ping_forwards_first_parameter_witness :
  process "PING :srv.example" registered
  = Outcome [handle_ping "srv.example"] registered (Ok tt).
Proof.
  apply (ping_forwards_first_parameter "PING :srv.example" registered None
           "srv.example" []); reflexivity.
Defined.



Lemma privmsg_to_channel_witness :
  process ":a!u@h PRIVMSG #x :hello" occupied
  = Outcome (if contains (State.channels (_state occupied)) "#x"
             then [handle_channel_message "#x" "hello" "a"] else [])
            occupied (Ok tt).
Proof.
  apply (privmsg_to_channel ":a!u@h PRIVMSG #x :hello" occupied "a!u@h" "#x" "hello"
           "a" (Some "u") (Some "h") "#x");
    [reflexivity | reflexivity | congruence | reflexivity | congruence
    | vm_compute; congruence | reflexivity | congruence].
Defined.

Lemma own_join_of_occupied_channel_ignored_witness :
  process ":me!u@h JOIN #x" occupied = Outcome [] occupied (Ok tt).
Proof.
  apply (own_join_of_occupied_channel_ignored ":me!u@h JOIN #x" occupied (Some "me!u@h")
           "#x" [] (Some "u") (Some "h"));
    [reflexivity | reflexivity | reflexivity | exists known; reflexivity].
Defined.

Lemma own_join_resets_pending_witness :
  process ":me!u@h JOIN #x" collecting
  = Outcome []
      (Build (_state collecting)
         (<["#x" := ChannelInfo.new "#x"]> (_pending_channel_info collecting)))
      (Ok tt).
Proof.
  apply (own_join_resets_pending ":me!u@h JOIN #x" collecting (Some "me!u@h")
           "#x" [] (Some "u") (Some "h")); reflexivity.
Defined.

Lemma join_of_other_adds_nick_witness :
  ∃ p',
    process ":c!u@h JOIN #x" occupied = Outcome [handle_join "#x" "c"] p' (Ok tt)
    ∧ _pending_channel_info p' = _pending_channel_info occupied
    ∧ (ChannelInfo.nicks <$> State.channels (_state p') !! "#x"
       = Some (ChannelInfo.nicks known ∪ {[ "c" ]}))
    ∧ ∀ c, c ≠ "#x" →
        State.channels (_state p') !! c = State.channels (_state occupied) !! c.
Proof.
  apply (join_of_other_adds_nick ":c!u@h JOIN #x" occupied (Some "c!u@h") "#x" []
           "c" (Some "u") (Some "h") known);
    [reflexivity | reflexivity | reflexivity | vm_compute; congruence | reflexivity].
Defined.

Lemma own_part_removes_channel_witness :
  process ":me!u@h PART #x" occupied
  = Outcome [handle_own_part "#x"]
      (Build (State.set_channels (delete "#x" (State.channels (_state occupied)))
                (_state occupied))
             (_pending_channel_info occupied))
      (Ok tt).
Proof.
  apply (own_part_removes_channel ":me!u@h PART #x" occupied (Some "me!u@h") "#x" []
           (Some "u") (Some "h")); reflexivity.
Defined.

Lemma own_kick_removes_channel_witness :
  process ":op!u@h KICK #x me :bye" occupied
  = Outcome [handle_own_kick "#x" "op" (Some "bye")]
      (Build (State.set_channels (delete "#x" (State.channels (_state occupied)))
                (_state occupied))
             (_pending_channel_info occupied))
      (Ok tt).
Proof.
  apply (own_kick_removes_channel ":op!u@h KICK #x me :bye" occupied (Some "op!u@h")
           "#x" ["bye"] "op" (Some "u") (Some "h")); reflexivity.
Defined.

Lemma nick_change_renames_everywhere_witness :
  ∃ p',
    process ":a!u@h NICK c" occupied
    = Outcome [if bool_decide ("a" = State.nick (_state occupied))
               then handle_own_nick_change "a" "c" else handle_nick_change "a" "c"]
              p' (Ok tt)
    ∧ State.nick (_state p')
      = (if bool_decide ("a" = State.nick (_state occupied))
         then "c" else State.nick (_state occupied))
    ∧ dom (State.channels (_state p')) = dom (State.channels (_state occupied))
    ∧ ∀ ch info', State.channels (_state p') !! ch = Some info' →
        ∃ info, State.channels (_state occupied) !! ch = Some info
          ∧ ∀ n, n ∈ ChannelInfo.nicks info'
                 ↔ (n ∈ ChannelInfo.nicks info ∧ n ≠ "a")
                   ∨ (n = "c" ∧ "a" ∈ ChannelInfo.nicks info).
Proof.
  apply (nick_change_renames_everywhere ":a!u@h NICK c" occupied (Some "a!u@h") "c" []
           "a" (Some "u") (Some "h")); reflexivity.
Defined.


Lemma topic_of_occupied_channel_witness :
  ∃ p',
    process ":op!u@h TOPIC #x :news" occupied = Outcome [] p' (Ok tt)
    ∧ _pending_channel_info p' = _pending_channel_info occupied
    ∧ State.channels (_state p') !! "#x"
      = Some (ChannelInfo.Build (ChannelInfo.name known) (Some "news")
                (ChannelInfo.nicks known))
    ∧ ∀ c, c ≠ "#x" →
        State.channels (_state p') !! c = State.channels (_state occupied) !! c.
Proof.
  apply (topic_of_occupied_channel ":op!u@h TOPIC #x :news" occupied (Some "op!u@h")
           "#x" "news" [] known); reflexivity.
Defined.

Lemma welcome_registers_witness :
  process ":srv 001 me :Welcome" fresh
  = Outcome [handle_response Rpl.WELCOME ":srv 001 me :Welcome"; handle_register]
      (Build (State.set_nick "me"
                (State.set_server (Some "srv") (State.set_registered true (_state fresh))))
             (_pending_channel_info fresh))
      (Ok tt).
Proof.
  apply (welcome_registers ":srv 001 me :Welcome" fresh (Some "srv") "001" "me"
           ["Welcome"]); reflexivity.
Defined.


Lemma end_of_names_without_pending_entry_witness :
  process ":srv 366 me #y :End of names" registered
  = Outcome [handle_response Rpl.ENDOFNAMES ":srv 366 me #y :End of names"] registered
            (Ok tt).
Proof.
  apply (end_of_names_without_pending_entry ":srv 366 me #y :End of names" registered
           (Some "srv") "366" "me" "#y" ["End of names"]); reflexivity.
Defined.

Lemma own_lost_op_without_flag_raises_witness :
  process ":op!u@h MODE #x -o me" occupied = Outcome [] occupied (Raise ValueError).
Proof.
  apply (own_lost_op_without_flag_raises ":op!u@h MODE #x -o me" occupied (Some "op!u@h")
           "#x" ["-o"; "me"] None "#x" [] "op" (Some "u") (Some "h") [] []);
    [reflexivity | reflexivity | reflexivity | congruence | reflexivity | reflexivity
    | vm_compute; apply not_elem_of_nil].
Defined.

Lemma own_op_given_and_taken_witness :
  process ":op!u@h MODE #x +o-o me me" occupied
  = Outcome [handle_own_got_op "#x" "op"; handle_own_lost_op "#x" "op"] occupied (Ok tt).
Proof.
  apply (own_op_given_and_taken ":op!u@h MODE #x +o-o me me" occupied (Some "op!u@h")
           "#x" ["+o-o"; "me"; "me"] None "#x" [] "op" (Some "u") (Some "h") [] []);
    [reflexivity | reflexivity | reflexivity | congruence | reflexivity | reflexivity
    | vm_compute; apply not_elem_of_nil].
Defined.

Lemma other_modes_ignored_witness :
  process ":op!u@h MODE #x +nt" occupied = Outcome [] occupied (Ok tt).
Proof.
  apply (other_modes_ignored ":op!u@h MODE #x +nt" occupied (Some "op!u@h")
           "#x" ["+nt"] None "#x" [] "op" (Some "u") (Some "h")
           [ModeChange.Build "n" true []; ModeChange.Build "t" true []]);
    [reflexivity | reflexivity | reflexivity | congruence | reflexivity | reflexivity |].
  apply Forall_cons_2; [split; discriminate|].
  apply Forall_cons_2; [split; discriminate|]. apply Forall_nil_2.
Defined.


Lemma numeric_error_positional_witness :
  ∃ kwargs,
    process ":srv 433 * me :Nickname is already in use" registered
    = Outcome [handle_error 433 kwargs] registered (Ok tt)
    ∧ ∀ i name value,
        ["nick"; "message"] !! i = Some name →
        tail ["*"; "me"; "Nickname is already in use"] !! i = Some value →
        kwargs !! name = Some value.
Proof.
  apply (numeric_error_positional ":srv 433 * me :Nickname is already in use" registered
           (Some "srv") "433" ["*"; "me"; "Nickname is already in use"] 433
           ["nick"; "message"]);
    [reflexivity | reflexivity | reflexivity | reflexivity | lia | reflexivity
    | reflexivity |].
  apply NoDup_cons. split; [|apply NoDup_singleton].
  intros Hin. apply list_elem_of_singleton in Hin. discriminate Hin.
Defined.

Lemma numeric_error_unknown_code_raises_witness :
  process ":srv 401 me nobody :No such nick" registered
  = Outcome [] registered (Raise KeyError).
Proof.
  apply (numeric_error_unknown_code_raises ":srv 401 me nobody :No such nick" registered
           (Some "srv") "401" ["me"; "nobody"; "No such nick"] 401);
    [reflexivity | reflexivity | reflexivity | reflexivity | lia | reflexivity].
Defined.

Lemma connected_and_registered_kept_witness :
  State.connected (_state (process_all handshake registered))
  = State.connected (_state registered)
  ∧ State.registered (_state (process_all handshake registered)) = true.
Proof.
  destruct (connected_and_registered_kept handshake registered) as [E R].
  split; [exact E|apply R; reflexivity].
Defined.

Lemma sent_line_is_received_witness :
  ∃ data,
    Connection.send_message ping live
    = (Connection.Build (Connection.loop live) (Some ([] ++ [data]))
         (Connection.log live ++ [Connection.Log Connection.DEBUG "Sending message: " ping])
         (Connection.initiations live) (Connection.dispatched live)
         (Connection.shutdowns live),
       Ok tt)
    ∧ ∀ c', Connection.dispatched (Connection.data_received calm data c')
            = Connection.dispatched c' ++ [ping].
Proof.
  apply (sent_line_is_received calm ping live []); reflexivity.
Defined.

Lemma split_line_is_two_messages_witness :
  Connection.dispatched
    (Connection.data_received calm [78; 73; 67; 75; 32; 109; 101; 13; 10]
       (Connection.data_received calm [80; 73; 78; 71; 32; 58; 97] live))
  = Connection.dispatched live ++ [ping; nick].
Proof.
  apply (split_line_is_two_messages calm ping nick [80; 73; 78; 71; 32; 58; 97]
           [78; 73; 67; 75; 32; 109; 101; 13; 10] live);
    [reflexivity | discriminate | reflexivity | reflexivity | reflexivity
    | reflexivity | reflexivity].
Defined.

Lemma dispatch_error_stops_block_witness :
  Connection.dispatched (Connection.data_received touchy three_lines live)
  = Connection.dispatched live ++ [ping] ++ [nick]
  ∧ Connection.shutdowns (Connection.data_received touchy three_lines live)
    = (if Loop.is_running (Connection.loop live)
       then S (Connection.shutdowns live) else Connection.shutdowns live).
Proof.
  apply (dispatch_error_stops_block touchy [ping] nick [quit] three_lines live);
    [reflexivity | reflexivity | | reflexivity].
  intros m Hm. apply list_elem_of_singleton in Hm. subst m. reflexivity.
Defined.

Lemma terminate_once_after_loop_exit_witness :
  Connection.shutdowns
    (Connection.terminate (Connection.batch_done (Connection.terminate live)))
  = S (Connection.shutdowns live)
  ∧ ∀ message,
      Connection.send_message message (Connection.batch_done (Connection.terminate live))
      = (Connection.batch_done (Connection.terminate live),
         Raise (NotConnectedError "TODO")).
Proof.
  apply (terminate_once_after_loop_exit live). reflexivity.
Defined.
